(** * Monopole structural analysis: the engine and its specification

    A shallow embedding of [MonopoleStructuralAnalysis] (file [15m (2).py]):
    dead load, the Kz profile, wind load, pole and foundation moment
    capacity, the load combinations and [analyze_monopole].

    Numbers.  Python's ints and floats are read as real numbers: every
    arithmetic operation is the exact one, so rounding, overflow and NaN are
    outside the model.  Decimal literals ([0.613], [9.81], [1e6]) denote the
    decimal they spell.

    Exceptions.  The methods run in an error monad whose errors are the
    Python exceptions this code can raise: a division by a zero divisor, an
    index into an empty list, a missing dict key, [max] of an empty sequence.

    Dicts.  A dict read with [d['k']] for a fixed set of keys is a record;
    a key read with [d.get('k', default)] is an [option] field; a dict that
    is iterated or searched by a computed key is an association list in
    insertion order. *)

From Stdlib Require Import Reals Lra Psatz List String Permutation.
Import ListNotations.
Open Scope string_scope.
Open Scope list_scope.
Open Scope R_scope.

(** ** The error monad *)

Inductive exn : Type :=
| ZeroDivisionError
| IndexError
| KeyError
| ValueError
| ComplexValue.   (* not an exception: [x ** y] left the real numbers *)

Inductive result (A : Type) : Type :=
| Ok (a : A)
| Raise (e : exn).

Arguments Ok {A} a.
Arguments Raise {A} e.

Definition bind {A B : Type} (m : result A) (k : A -> result B) : result B :=
  match m with
  | Ok a => k a
  | Raise e => Raise e
  end.

Notation "x <- m ;; k" := (bind m (fun x => k))
  (at level 61, m at next level, right associativity).
Notation "' pat <- m ;; k" := (bind m (fun x => match x with pat => k end))
  (at level 61, pat pattern, m at next level, right associativity).

(** ** Python primitives *)

(** [a / b] on numbers. *)
Definition pydiv (a b : R) : result R :=
  if Req_dec_T b 0 then Raise ZeroDivisionError else Ok (a / b).

(** [x ** y] for a float exponent [y]: the real power on a positive base;
    [0.0 ** y] is [0.0], [1.0] or an error; a negative base gives a real
    number only for an integral exponent, and a complex number otherwise. *)
Definition float_pow (x y : R) : result R :=
  if Rlt_dec 0 x then Ok (Rpower x y)
  else if Req_dec_T x 0 then
    if Rlt_dec 0 y then Ok 0
    else if Req_dec_T y 0 then Ok 1
    else Raise ZeroDivisionError
  else if Req_dec_T (frac_part y) 0 then Ok (powerRZ x (Int_part y))
  else Raise ComplexValue.

(** [l[0]]. *)
Definition list_first {A : Type} (l : list A) : result A :=
  match l with
  | [] => Raise IndexError
  | x :: _ => Ok x
  end.

(** [d.get(k, default)] on a dict with string keys. *)
Fixpoint dict_get {V : Type} (d : list (string * V)) (k : string) (default : V) : V :=
  match d with
  | [] => default
  | (k', v) :: rest => if String.eqb k k' then v else dict_get rest k default
  end.

(** [d[k]]. *)
Fixpoint dict_item {V : Type} (d : list (string * V)) (k : string) : result V :=
  match d with
  | [] => Raise KeyError
  | (k', v) :: rest => if String.eqb k k' then Ok v else dict_item rest k
  end.

(** [o.get(k, default)] for an optional record field. *)
Definition get {V : Type} (o : option V) (default : V) : V :=
  match o with
  | Some v => v
  | None => default
  end.

(** [sum(...)]: starts from 0 and adds from the left. *)
Definition sum (l : list R) : R := fold_left Rplus l 0.

(** [max(l, key=key)]: the first element no later element strictly beats. *)
Fixpoint max_from {A : Type} (key : A -> R) (best : A) (rest : list A) : A :=
  match rest with
  | [] => best
  | x :: rest' =>
      if Rgt_dec (key x) (key best) then max_from key x rest'
      else max_from key best rest'
  end.

Definition py_max {A : Type} (key : A -> R) (l : list A) : result A :=
  match l with
  | [] => Raise ValueError
  | x :: rest => Ok (max_from key x rest)
  end.

(** [min(a, b)]: [b] only when it is strictly smaller. *)
Definition py_min (a b : R) : R := if Rlt_dec b a then b else a.

(** ** Data model *)

Record PoleSection : Type := mkSection {
  height : R;            (* 'height', mm *)
  diameter_top : R;      (* 'diameter_top', mm *)
  diameter_bottom : R;   (* 'diameter_bottom', mm *)
  thickness : R          (* 'thickness', mm *)
}.

Record Equipment : Type := mkEquipment {
  weight_kg : option R;
  wind_area_m2 : option R;
  cf : option R
}.

Record CrownPlatform : Type := mkPlatform {
  platform_height : R;                    (* 'height', m *)
  platform_weight_kg : option R;
  platform_wind_area_m2 : option R;
  platform_cf : option R;                 (* 'cf' *)
  antennas : option (list Equipment);
  rrus : option (list Equipment);
  other_equipment : option (list Equipment)
}.

Record FoundationParams : Type := mkFoundation {
  bolt_circle_diameter : R;   (* mm *)
  number_of_bolts : R;
  bolt_diameter : R;          (* mm *)
  bolt_grade : R              (* MPa *)
}.

Record ExposureParams : Type := mkExposure {
  base : R;
  zg : R;
  alpha : R;
  breakpoints : list (R * R)
}.

(** The two constants set by [__init__]. *)
Definition steel_density : R := 7850.
Definition gravity : R := 9.81.

(** ** calculate_kz *)

Definition exposure_C : ExposureParams :=
  mkExposure 0.85 274.32 9.5
    [(4.6, 0.85); (6.1, 0.90); (9.1, 0.98); (12.2, 1.04); (15.2, 1.09)].
Definition exposure_B : ExposureParams :=
  mkExposure 0.57 365.76 7.0 [(9.1, 0.57); (12.2, 0.62); (15.2, 0.66)].
Definition exposure_D : ExposureParams :=
  mkExposure 1.03 213.36 11.5 [(4.6, 1.03); (6.1, 1.08); (9.1, 1.16)].

Definition exposure_params : list (string * ExposureParams) :=
  [("C", exposure_C); ("B", exposure_B); ("D", exposure_D)].

(** The [for height_limit, kz_value in params['breakpoints']] loop: [Some]
    is its early [return]. *)
Fixpoint scan_breakpoints (bps : list (R * R)) (height_m : R) : option R :=
  match bps with
  | [] => None
  | (height_limit, kz_value) :: rest =>
      if Rlt_dec height_m height_limit then Some kz_value
      else scan_breakpoints rest height_m
  end.

Definition calculate_kz (height_m : R) (exposure : string) : result R :=
  let params := dict_get exposure_params exposure exposure_C in
  match scan_breakpoints (breakpoints params) height_m with
  | Some kz_value => Ok kz_value
  | None =>
      first <- list_first (breakpoints params) ;;
      ratio <- pydiv height_m (fst first) ;;
      exponent <- pydiv 2 (alpha params) ;;
      power <- float_pow ratio exponent ;;
      Ok (base params * power)
  end.

(** ** calculate_dead_load *)

(** One turn of [for section in sections]: the steel mass of the section. *)
Definition section_weight (section : PoleSection) : R :=
  let height_m := height section / 1000 in
  let d_avg_m := ((diameter_top section + diameter_bottom section) / 2) / 1000 in
  let thickness_m := thickness section / 1000 in
  let outer_volume := PI * (d_avg_m / 2) ^ 2 * height_m in
  let inner_volume := PI * ((d_avg_m / 2) - thickness_m) ^ 2 * height_m in
  let steel_volume_m3 := outer_volume - inner_volume in
  steel_volume_m3 * steel_density.

Fixpoint dead_sections (sections : list PoleSection) (total_weight_kg : R) : R :=
  match sections with
  | [] => total_weight_kg
  | section :: rest => dead_sections rest (total_weight_kg + section_weight section)
  end.

Definition equipment_weights (items : option (list Equipment)) : R :=
  sum (map (fun item => get (weight_kg item) 0) (get items [])).

Fixpoint dead_platforms (platforms : list CrownPlatform) (crown_weight_kg : R) : R :=
  match platforms with
  | [] => crown_weight_kg
  | platform :: rest =>
      let crown_weight_kg := crown_weight_kg + get (platform_weight_kg platform) 0 in
      let crown_weight_kg := crown_weight_kg + equipment_weights (antennas platform) in
      let crown_weight_kg := crown_weight_kg + equipment_weights (rrus platform) in
      let crown_weight_kg := crown_weight_kg + equipment_weights (other_equipment platform) in
      dead_platforms rest crown_weight_kg
  end.

(** [if crown_platforms:] is false for [None] and for the empty list. *)
Definition truthy {A : Type} (l : option (list A)) : bool :=
  match l with
  | Some (_ :: _) => true
  | _ => false
  end.

Definition calculate_dead_load (sections : list PoleSection)
    (crown_platforms : option (list CrownPlatform)) : result (R * R) :=
  let total_weight_kg := dead_sections sections 0 in
  let crown_weight_kg :=
    if truthy crown_platforms then dead_platforms (get crown_platforms []) 0 else 0 in
  Ok (total_weight_kg, crown_weight_kg).

(** ** calculate_wind_load *)

Definition kzt : R := 1.0.
Definition kd : R := 0.95.
Definition pole_cf : R := 0.5.

(** [for section in sections]; the state is
    [(total_wind_force, wind_moment, height_cumulative)]. *)
Fixpoint wind_sections (sections : list PoleSection) (wind_speed_ms : R)
    (exposure : string) (st : R * R * R) : result (R * R * R) :=
  match sections with
  | [] => Ok st
  | section :: rest =>
      let '(total_wind_force, wind_moment, height_cumulative) := st in
      let h := height section / 1000 in
      let d_avg := ((diameter_top section + diameter_bottom section) / 2) / 1000 in
      let projected_area := d_avg * h in
      let section_center_height := height_cumulative + h / 2 in
      kz <- calculate_kz section_center_height exposure ;;
      let qz := 0.613 * kz * kzt * kd * (wind_speed_ms ^ 2) in
      let wind_force := qz * pole_cf * projected_area in
      wind_sections rest wind_speed_ms exposure
        (total_wind_force + wind_force,
         wind_moment + wind_force * section_center_height,
         height_cumulative + h)
  end.

(** The antenna loop and the RRU loop differ in the default [cf] only. *)
Fixpoint wind_items (items : list Equipment) (default_cf qz platform_height : R)
    (st : R * R) : R * R :=
  match items with
  | [] => st
  | item :: rest =>
      let '(total_wind_force, wind_moment) := st in
      let force := qz * get (cf item) default_cf * get (wind_area_m2 item) 0 in
      wind_items rest default_cf qz platform_height
        (total_wind_force + force, wind_moment + force * platform_height)
  end.

Fixpoint wind_platforms (platforms : list CrownPlatform) (wind_speed_ms : R)
    (exposure : string) (st : R * R) : result (R * R) :=
  match platforms with
  | [] => Ok st
  | platform :: rest =>
      let platform_height := platform_height platform in
      kz <- calculate_kz platform_height exposure ;;
      let qz := 0.613 * kz * kzt * kd * (wind_speed_ms ^ 2) in
      let st := wind_items (get (antennas platform) []) 1.2 qz platform_height st in
      let st := wind_items (get (rrus platform) []) 1.0 qz platform_height st in
      let platform_area := get (platform_wind_area_m2 platform) 0 in
      let st :=
        if Rgt_dec platform_area 0 then
          let '(total_wind_force, wind_moment) := st in
          let force := qz * get (platform_cf platform) 1.5 * platform_area in
          (total_wind_force + force, wind_moment + force * platform_height)
        else st in
      wind_platforms rest wind_speed_ms exposure st
  end.

Definition calculate_wind_load (sections : list PoleSection) (wind_speed_ms : R)
    (exposure : string) (crown_platforms : option (list CrownPlatform))
    : result (R * R) :=
  '(total_wind_force, wind_moment, _) <-
    wind_sections sections wind_speed_ms exposure (0, 0, 0) ;;
  if truthy crown_platforms then
    wind_platforms (get crown_platforms []) wind_speed_ms exposure
      (total_wind_force, wind_moment)
  else Ok (total_wind_force, wind_moment).

(** Relation between the [(force, moment)] states of two runs: the second
    is the first scaled by [k]. *)
Definition scaled_by (k : R) (st st2 : R * R) : Prop :=
  fst st2 = k * fst st /\ snd st2 = k * snd st.

(** ** calculate_moment_capacity *)

Definition yield_strengths : list (string * R) :=
  [("A36", 248); ("A572-50", 345); ("A992", 345); ("S355", 355)].

Definition calculate_moment_capacity (diameter_mm thickness_mm : R)
    (steel_grade : string) : result (R * R) :=
  let fy_mpa := dict_get yield_strengths steel_grade 355 in
  let d_outer := diameter_mm / 1000 in
  let thickness := thickness_mm / 1000 in
  let d_inner := d_outer - 2 * thickness in
  section_modulus_m3 <- pydiv ((PI / 32) * (d_outer ^ 4 - d_inner ^ 4)) d_outer ;;
  let moment_capacity_nm := section_modulus_m3 * fy_mpa * 1e6 in
  Ok (moment_capacity_nm, section_modulus_m3).

(** ** calculate_foundation_capacity *)

Definition calculate_foundation_capacity (foundation_params : FoundationParams)
    : result (R * R) :=
  let bolt_circle_dia := bolt_circle_diameter foundation_params / 1000 in
  let num_bolts := number_of_bolts foundation_params in
  let bolt_diameter := bolt_diameter foundation_params / 1000 in
  let bolt_grade := bolt_grade foundation_params in
  let bolt_area := PI * (bolt_diameter ^ 2) / 4 in
  let bolt_tensile_capacity := bolt_area * bolt_grade * 1e6 * 0.75 in
  let lever_arm := bolt_circle_dia / 2 in
  let bolts_in_tension := num_bolts / 2 in
  let total_bolt_capacity := bolts_in_tension * bolt_tensile_capacity in
  let foundation_moment_capacity := total_bolt_capacity * lever_arm in
  let allowable_foundation_moment := foundation_moment_capacity / 2.0 in
  Ok (allowable_foundation_moment, bolt_tensile_capacity).

(** ** calculate_load_combinations *)

Definition load_combinations (wind_moment_nm applied_moment_nm : R)
    : list (string * R) :=
  [("LRFD_1.4D", 0);
   ("LRFD_1.2D+1.6W", applied_moment_nm + 1.6 * wind_moment_nm);
   ("LRFD_1.2D+1.0W", applied_moment_nm + 1.0 * wind_moment_nm);
   ("LRFD_0.9D+1.6W", applied_moment_nm + 1.6 * wind_moment_nm);
   ("ASD_D", 0);
   ("ASD_D+W", applied_moment_nm + wind_moment_nm);
   ("ASD_D+0.75W", applied_moment_nm + 0.75 * wind_moment_nm);
   ("ASD_0.6D+0.6W", applied_moment_nm + 0.6 * wind_moment_nm)].

(** [{name: moment / governing_moment for name, moment in ...items()}]. *)
Fixpoint utilizations_of (combinations : list (string * R)) (governing_moment : R)
    : result (list (string * R)) :=
  match combinations with
  | [] => Ok []
  | (name, moment) :: rest =>
      u <- pydiv moment governing_moment ;;
      us <- utilizations_of rest governing_moment ;;
      Ok ((name, u) :: us)
  end.

Definition calculate_load_combinations (wind_moment_nm applied_moment_nm
    governing_moment : R)
    : result (list (string * R) * list (string * R) * string * R) :=
  let combinations := load_combinations wind_moment_nm applied_moment_nm in
  utilizations <- utilizations_of combinations governing_moment ;;
  max_utilization <- py_max (fun x => x) (map snd utilizations) ;;
  governing <- py_max snd utilizations ;;
  let governing_combo := fst governing in
  Ok (combinations, utilizations, governing_combo, max_utilization).

(** ** analyze_monopole *)

(** The dict [analyze_monopole] returns. *)
Record AnalysisResult : Type := mkResult {
  pole_weight_kg : R;
  crown_weight_kg : R;
  total_dead_load_kg : R;
  wind_force_n : R;
  wind_moment_nm : R;
  governing_element : string;
  governing_combo : string;
  max_utilization : R;
  max_load_capacity_kg : R;
  remaining_capacity_kg : R;
  status : string;
  all_combinations : list (string * R);
  all_utilizations : list (string * R)
}.

(** The [if max_utilization > 1.0: ... elif ... else ...] chain. *)
Definition status_of (max_utilization : R) : string :=
  if Rgt_dec max_utilization 1.0 then "FAIL - Structure is overstressed!"
  else if Rgt_dec max_utilization 0.9 then "CRITICAL - Very high utilization"
  else if Rgt_dec max_utilization 0.8 then "WARNING - High utilization"
  else if Rgt_dec max_utilization 0.6 then "GOOD - Adequately designed"
  else "CONSERVATIVE - Significant reserve capacity".

(** Step 4: the governing moment and element.  A [foundation_params] dict
    that holds its four keys is non-empty, hence true. *)
Definition governing (allowable_pole_moment : R)
    (foundation_params : option FoundationParams) : result (R * string) :=
  match foundation_params with
  | Some params =>
      '(allowable_foundation_moment, _) <- calculate_foundation_capacity params ;;
      let governing_moment := py_min allowable_pole_moment allowable_foundation_moment in
      let governing_element :=
        if Rlt_dec allowable_foundation_moment allowable_pole_moment
        then "FOUNDATION" else "POLE" in
      Ok (governing_moment, governing_element)
  | None => Ok (allowable_pole_moment, "POLE")
  end.

(** The printed summary is output only and is left out. *)
Definition analyze_monopole (sections : list PoleSection)
    (applied_load_kg wind_speed_ms : R) (exposure steel_grade : string)
    (foundation_params : option FoundationParams)
    (crown_platforms : option (list CrownPlatform)) : result AnalysisResult :=
  (* 1. Dead load *)
  '(pole_weight_kg, crown_weight_kg) <- calculate_dead_load sections crown_platforms ;;
  let total_dead_load_kg := pole_weight_kg + crown_weight_kg in
  (* 2. Total height *)
  let total_height_m := sum (map height sections) / 1000 in
  (* 3. Structural capacity *)
  bottom_section <- list_first sections ;;
  '(pole_moment_capacity, _) <-
    calculate_moment_capacity (diameter_bottom bottom_section)
      (thickness bottom_section) steel_grade ;;
  let allowable_pole_moment := pole_moment_capacity / 2.0 in
  (* 4. Foundation capacity *)
  '(governing_moment, governing_element) <-
    governing allowable_pole_moment foundation_params ;;
  (* 5. Wind loads *)
  '(wind_force, wind_moment) <-
    (if Rgt_dec wind_speed_ms 0
     then calculate_wind_load sections wind_speed_ms exposure crown_platforms
     else Ok (0, 0)) ;;
  (* 6. Applied load moment *)
  let applied_moment := applied_load_kg * gravity * total_height_m in
  (* 7. Load combinations *)
  '(combinations, utilizations, governing_combo, max_utilization) <-
    calculate_load_combinations wind_moment applied_moment governing_moment ;;
  (* 8. Remaining capacity and max load *)
  governing_combo_moment <- dict_item combinations governing_combo ;;
  let remaining_moment := governing_moment - governing_combo_moment in
  remaining_load_capacity <-
    (if Rgt_dec total_height_m 0
     then pydiv remaining_moment (gravity * total_height_m) else Ok 0) ;;
  max_load_capacity <-
    (if Rgt_dec total_height_m 0
     then pydiv governing_moment (gravity * total_height_m) else Ok 0) ;;
  (* Status determination *)
  let status := status_of max_utilization in
  Ok (mkResult pole_weight_kg crown_weight_kg total_dead_load_kg
        wind_force wind_moment governing_element governing_combo
        max_utilization max_load_capacity remaining_load_capacity status
        combinations utilizations).

(** ** The script: the balanced 15 m tower *)

(** The configuration the file runs under [if __name__ == "__main__"]; the
    ['type'] of an equipment item and the foundation keys that are never read
    are left out. *)
Module Script.

Definition monopole_sections : list PoleSection :=
  [mkSection 15000 250 628 5].

Definition sector_antenna : Equipment := mkEquipment (Some 40) (Some 1.5) (Some 1.2).
Definition rru : Equipment := mkEquipment (Some 30) (Some 0.6) (Some 1.0).
Definition microlink : Equipment := mkEquipment (Some 25) (Some 0.3) (Some 1.0).

Definition crown_platforms : list CrownPlatform :=
  [mkPlatform 14.0 (Some 150) (Some 1.5) (Some 1.5)
     (Some [sector_antenna; sector_antenna; sector_antenna;
            sector_antenna; sector_antenna; sector_antenna])
     (Some [rru; rru; rru; rru; rru; rru; rru; rru])
     (Some [microlink]);
   mkPlatform 11.0 (Some 120) (Some 1.3) (Some 1.5)
     (Some [sector_antenna; sector_antenna; sector_antenna; sector_antenna])
     (Some [rru; rru; rru; rru; rru; rru; rru; rru])
     (Some [microlink])].

Definition foundation_parameters : FoundationParams :=
  mkFoundation 750 16 22 420.

Definition results : result AnalysisResult :=
  analyze_monopole monopole_sections 0 20.0 "C" "S355"
    (Some foundation_parameters) (Some crown_platforms).

End Script.

(** ** Conditions on the input used in the statements below *)

(** An optional number that, when given, is not negative. *)
Definition nonneg_opt (o : option R) : Prop :=
  match o with
  | Some v => 0 <= v
  | None => True
  end.

(** An antenna or RRU whose [cf] and [wind_area_m2], when given, are not
    negative. *)
Definition nonneg_item (item : Equipment) : Prop :=
  nonneg_opt (cf item) /\ nonneg_opt (wind_area_m2 item).

(** A platform at a height that is not negative, with a [cf] that is not
    negative and such antennas and RRUs. *)
Definition nonneg_platform (platform : CrownPlatform) : Prop :=
  0 <= platform_height platform
  /\ nonneg_opt (platform_cf platform)
  /\ Forall nonneg_item (get (antennas platform) [])
  /\ Forall nonneg_item (get (rrus platform) []).

(** A section whose height and diameters are not negative. *)
Definition nonneg_section (section : PoleSection) : Prop :=
  0 <= height section /\ 0 <= diameter_top section /\ 0 <= diameter_bottom section.

(** * Properties *)

(** ** The monad and the primitives *)

Lemma pydiv_ok (a b : R) : b <> 0 -> pydiv a b = Ok (a / b).
Proof.
  intros Hb. unfold pydiv. destruct (Req_dec_T b 0) as [E | _]; [contradiction | reflexivity].
Qed.

Lemma pydiv_zero (a : R) : pydiv a 0 = Raise ZeroDivisionError.
Proof.
  unfold pydiv. destruct (Req_dec_T 0 0) as [_ | N]; [reflexivity | now elim N].
Qed.

Lemma float_pow_pos (x y : R) : 0 < x -> float_pow x y = Ok (Rpower x y).
Proof.
  intros Hx. unfold float_pow. destruct (Rlt_dec 0 x) as [_ | N]; [reflexivity | contradiction].
Qed.

(** Resolving a comparison whose outcome the context decides. *)
Ltac decide_cmp :=
  match goal with
  | |- context [Rlt_dec ?a ?b] =>
      destruct (Rlt_dec a b); [ try (exfalso; lra) | try (exfalso; lra) ]
  | |- context [Rgt_dec ?a ?b] =>
      destruct (Rgt_dec a b); [ try (exfalso; lra) | try (exfalso; lra) ]
  end.

(** ** calculate_kz *)

Lemma exposure_lookup (e : string) :
  dict_get exposure_params e exposure_C = exposure_C
  \/ dict_get exposure_params e exposure_C = exposure_B
  \/ dict_get exposure_params e exposure_C = exposure_D.
Proof.
  unfold exposure_params; simpl.
  destruct (String.eqb e "C"); [now left |].
  destruct (String.eqb e "B"); [now right; left |].
  destruct (String.eqb e "D"); [now right; right | now left].
Qed.

Lemma exposure_unknown (e : string) :
  e <> "B" -> e <> "C" -> e <> "D" ->
  dict_get exposure_params e exposure_C = exposure_C.
Proof.
  intros HB HC HD. unfold exposure_params; simpl.
  apply String.eqb_neq in HB, HC, HD. now rewrite HC, HB, HD.
Qed.

(** The scan stops at the first threshold that strictly exceeds the height. *)
Lemma scan_first (h : R) (pre post : list (R * R)) (t kz : R) :
  Forall (fun b => fst b <= h) pre -> h < t ->
  scan_breakpoints (pre ++ (t, kz) :: post) h = Some kz.
Proof.
  intros Hpre Ht. induction Hpre as [| [t' kz'] pre Hle _ IH]; simpl in *.
  - destruct (Rlt_dec h t); [reflexivity | contradiction].
  - destruct (Rlt_dec h t'); [lra | exact IH].
Qed.

(** It falls through exactly when no threshold exceeds the height. *)
Lemma scan_none (h : R) (bps : list (R * R)) :
  Forall (fun b => fst b <= h) bps -> scan_breakpoints bps h = None.
Proof.
  induction 1 as [| [t kz] bps Hle _ IH]; simpl in *; [reflexivity |].
  destruct (Rlt_dec h t); [lra | exact IH].
Qed.

Lemma scan_total (h : R) (bps : list (R * R)) :
  (exists pre t kz post,
      bps = pre ++ (t, kz) :: post /\ Forall (fun b => fst b <= h) pre /\ h < t)
  \/ Forall (fun b => fst b <= h) bps.
Proof.
  induction bps as [| [t kz] bps IH]; [right; constructor |].
  destruct (Rlt_dec h t) as [Hlt | Hge].
  - left. exists [], t, kz, bps. repeat split; [constructor | exact Hlt].
  - destruct IH as [(pre & t' & kz' & post & -> & Hpre & Hlt) | Hall].
    + left. exists ((t, kz) :: pre), t', kz', post.
      repeat split; [constructor; [simpl; lra | exact Hpre] | exact Hlt].
    + right. constructor; [simpl; lra | exact Hall].
Qed.

(** Past the table the power law is evaluated on a positive base, with no
    error: the thresholds and [alpha] of the three tables are positive. *)
Lemma kz_power_law (h : R) (e : string) :
  let p := dict_get exposure_params e exposure_C in
  Forall (fun b => fst b <= h) (breakpoints p) ->
  exists t0 kz0 rest,
    breakpoints p = (t0, kz0) :: rest
    /\ 0 < h / t0
    /\ calculate_kz h e = Ok (base p * Rpower (h / t0) (2 / alpha p)).
Proof.
  intros p Hall. unfold calculate_kz. fold p.
  rewrite (scan_none _ _ Hall).
  destruct (exposure_lookup e) as [E | [E | E]]; fold p in E; rewrite E in *;
    simpl in *; inversion Hall as [| ? ? H0 _]; subst; simpl in H0;
    do 3 eexists; (split; [reflexivity |]);
    (assert (Hpos : 0 < h / fst (hd (0, 0) (breakpoints p)))
       by (rewrite E; simpl; apply Rdiv_lt_0_compat; lra));
    rewrite E in Hpos; simpl in Hpos;
    (split; [exact Hpos |]);
    rewrite pydiv_ok by lra; simpl;
    rewrite pydiv_ok by lra; simpl;
    rewrite float_pow_pos by exact Hpos; reflexivity.
Qed.

Lemma kz_table (h : R) (e : string) (pre post : list (R * R)) (t kz : R) :
  breakpoints (dict_get exposure_params e exposure_C) = pre ++ (t, kz) :: post ->
  Forall (fun b => fst b <= h) pre -> h < t ->
  calculate_kz h e = Ok kz.
Proof.
  intros E Hpre Ht. unfold calculate_kz. rewrite E.
  now rewrite (scan_first _ _ _ _ _ Hpre Ht).
Qed.

(** [calculate_kz] never raises. *)
Lemma calculate_kz_total (h : R) (e : string) : exists kz, calculate_kz h e = Ok kz.
Proof.
  destruct (scan_total h (breakpoints (dict_get exposure_params e exposure_C)))
    as [(pre & t & kz & post & E & Hpre & Ht) | Hall].
  - exists kz. exact (kz_table _ _ _ _ _ _ E Hpre Ht).
  - destruct (kz_power_law h e Hall) as (t0 & kz0 & rest & _ & _ & Hk). eauto.
Qed.

(** C4. For every height (in particular every [h >= 0]) and every exposure
    string, [calculate_kz] returns the Kz of the first breakpoint, in table
    order, whose threshold strictly exceeds the height; when no threshold
    exceeds it, it returns [base * (h / first_threshold) ** (2 / alpha)];
    one of the two always applies.  For exposure C at [h = 4.6] the value is
    [0.90] and not [0.85], and an exposure other than B, C and D is read in
    the table of category C. *)
Theorem calculate_kz_first_exceeding_breakpoint :
  forall (h : R) (e : string),
    let p := dict_get exposure_params e exposure_C in
    (forall pre t kz post,
        breakpoints p = pre ++ (t, kz) :: post ->
        Forall (fun b => fst b <= h) pre -> h < t ->
        calculate_kz h e = Ok kz)
    /\ (Forall (fun b => fst b <= h) (breakpoints p) ->
        exists t0 kz0 rest,
          breakpoints p = (t0, kz0) :: rest
          /\ calculate_kz h e = Ok (base p * Rpower (h / t0) (2 / alpha p)))
    /\ ((exists pre t kz post,
            breakpoints p = pre ++ (t, kz) :: post
            /\ Forall (fun b => fst b <= h) pre /\ h < t)
        \/ Forall (fun b => fst b <= h) (breakpoints p))
    /\ calculate_kz 4.6 "C" = Ok 0.90
    /\ calculate_kz 4.6 "C" <> Ok 0.85
    /\ (e <> "B" -> e <> "C" -> e <> "D" ->
        p = exposure_C /\ calculate_kz h e = calculate_kz h "C").
Proof.
  intros h e p.
  assert (H46 : calculate_kz 4.6 "C" = Ok 0.90).
  { apply (kz_table 4.6 "C" [(4.6, 0.85)]
             [(9.1, 0.98); (12.2, 1.04); (15.2, 1.09)] 6.1 0.90); [reflexivity | | lra].
    constructor; [simpl; lra | constructor]. }
  split; [| split; [| split; [| split; [| split]]]].
  - intros pre t kz post E Hpre Ht. exact (kz_table _ _ _ _ _ _ E Hpre Ht).
  - intros Hall. destruct (kz_power_law h e Hall) as (t0 & kz0 & rest & E & _ & Hk).
    exists t0, kz0, rest. split; assumption.
  - apply scan_total.
  - exact H46.
  - rewrite H46. intros Heq. injection Heq as Heq. lra.
  - intros HB HC HD. pose proof (exposure_unknown e HB HC HD) as E.
    split; [exact E |]. unfold calculate_kz. fold p. unfold p. rewrite E. reflexivity.
Qed.

(** Both branches at work for exposure C: 5 m is below the second threshold
    and above the first; 20 m is above every threshold. *)
Lemma calculate_kz_first_exceeding_breakpoint_witness :
  calculate_kz 5 "C" = Ok 0.90
  /\ calculate_kz 20 "C" = Ok (0.85 * Rpower (20 / 4.6) (2 / 9.5)).
Proof.
  split.
  - destruct (calculate_kz_first_exceeding_breakpoint 5 "C") as (Htable & _).
    apply (Htable [(4.6, 0.85)] 6.1 0.90 [(9.1, 0.98); (12.2, 1.04); (15.2, 1.09)]);
      [reflexivity | | lra].
    constructor; [simpl; lra | constructor].
  - destruct (calculate_kz_first_exceeding_breakpoint 20 "C") as (_ & Hpower & _).
    destruct Hpower as (t0 & kz0 & rest & E & Hk).
    + repeat (constructor; [simpl; lra |]). constructor.
    + injection E as <- _ _. exact Hk.
Defined.

(** *** Monotonicity for exposure C *)

(** The last table value does not exceed the power law at the last
    threshold: [1.09 <= 0.85 * (15.2 / 4.6) ** (2 / 9.5)], since
    [(1.09 / 0.85) ^ 19 <= (15.2 / 4.6) ^ 4]. *)
Lemma kz_C_boundary : 1.09 <= 0.85 * Rpower (15.2 / 4.6) (2 / 9.5).
Proof.
  set (x := 15.2 / 4.6). set (y := Rpower x (2 / 9.5)).
  assert (Hx : 0 < x) by (unfold x; lra).
  assert (Hy : 0 < y) by (unfold y, Rpower; apply exp_pos).
  destruct (Rle_lt_dec (1.09 / 0.85) y) as [Hle | Hlt]; [lra | exfalso].
  assert (H19 : Rpower y (INR 19) < Rpower (1.09 / 0.85) (INR 19)).
  { apply Rlt_Rpower_l; [apply lt_0_INR; repeat constructor | lra]. }
  rewrite (Rpower_pow 19 (1.09 / 0.85)) in H19 by lra.
  unfold y in H19. rewrite Rpower_mult in H19.
  replace (2 / 9.5 * INR 19) with (INR 4) in H19 by (simpl; lra).
  rewrite Rpower_pow in H19 by exact Hx.
  unfold x in H19. lra.
Qed.

(** The value of [calculate_kz] for exposure C, interval by interval. *)
Lemma kz_C_cases (h : R) :
  (h < 4.6 /\ calculate_kz h "C" = Ok 0.85)
  \/ (4.6 <= h < 6.1 /\ calculate_kz h "C" = Ok 0.90)
  \/ (6.1 <= h < 9.1 /\ calculate_kz h "C" = Ok 0.98)
  \/ (9.1 <= h < 12.2 /\ calculate_kz h "C" = Ok 1.04)
  \/ (12.2 <= h < 15.2 /\ calculate_kz h "C" = Ok 1.09)
  \/ (15.2 <= h /\ calculate_kz h "C" = Ok (0.85 * Rpower (h / 4.6) (2 / 9.5))).
Proof.
  unfold calculate_kz; simpl.
  destruct (Rlt_dec h 4.6); [left; split; [lra | reflexivity] | right].
  destruct (Rlt_dec h 6.1); [left; split; [lra | reflexivity] | right].
  destruct (Rlt_dec h 9.1); [left; split; [lra | reflexivity] | right].
  destruct (Rlt_dec h 12.2); [left; split; [lra | reflexivity] | right].
  destruct (Rlt_dec h 15.2); [left; split; [lra | reflexivity] | right].
  split; [lra |].
  rewrite pydiv_ok by lra; simpl. rewrite pydiv_ok by lra; simpl.
  rewrite float_pow_pos by (apply Rdiv_lt_0_compat; lra). reflexivity.
Qed.

Lemma kz_C_power_mono (h1 h2 : R) :
  15.2 <= h1 <= h2 ->
  0.85 * Rpower (15.2 / 4.6) (2 / 9.5) <= 0.85 * Rpower (h1 / 4.6) (2 / 9.5)
  /\ 0.85 * Rpower (h1 / 4.6) (2 / 9.5) <= 0.85 * Rpower (h2 / 4.6) (2 / 9.5).
Proof.
  intros [H1 H2].
  assert (M : forall a b, 15.2 <= a <= b ->
                Rpower (a / 4.6) (2 / 9.5) <= Rpower (b / 4.6) (2 / 9.5)).
  { intros a b [Ha Hb]. apply Rle_Rpower_l; [lra |].
    split; [apply Rdiv_lt_0_compat; lra |].
    apply Rmult_le_compat_r; [| exact Hb].
    apply Rlt_le, Rinv_0_lt_compat. lra. }
  pose proof (M 15.2 h1 ltac:(lra)). pose proof (M h1 h2 ltac:(lra)). lra.
Qed.

(** C6. For exposure C, [calculate_kz] is non-decreasing in the height on
    [0 <= h1 <= h2]: both calls return, and the first value is at most the
    second, also when [h1] is in the table and [h2] in the power law. *)
Theorem calculate_kz_C_monotone :
  forall h1 h2 : R, 0 <= h1 -> h1 <= h2 ->
    exists k1 k2,
      calculate_kz h1 "C" = Ok k1 /\ calculate_kz h2 "C" = Ok k2 /\ k1 <= k2.
Proof.
  intros h1 h2 _ Hle.
  pose proof kz_C_boundary as Hb.
  destruct (kz_C_cases h1) as [[R1 E1] | [[R1 E1] | [[R1 E1] | [[R1 E1] | [[R1 E1] | [R1 E1]]]]]];
  destruct (kz_C_cases h2) as [[R2 E2] | [[R2 E2] | [[R2 E2] | [[R2 E2] | [[R2 E2] | [R2 E2]]]]]];
  try (exfalso; lra);
  rewrite E1, E2; do 2 eexists; (split; [reflexivity |]); (split; [reflexivity |]);
  try lra;
  try (pose proof (kz_C_power_mono h2 h2 ltac:(lra)) as [M1 _]; lra).
  pose proof (kz_C_power_mono h1 h2 ltac:(lra)) as [_ M2]. exact M2.
Qed.

(** An instance across the boundary between the table and the power law. *)
Lemma calculate_kz_C_monotone_witness :
  0 <= 15 /\ 15 <= 16
  /\ exists k1 k2,
       calculate_kz 15 "C" = Ok k1 /\ calculate_kz 16 "C" = Ok k2 /\ k1 <= k2.
Proof.
  split; [lra | split; [lra |]].
  apply (calculate_kz_C_monotone 15 16); lra.
Defined.

(** ** calculate_wind_load *)

Section WindScaling.

(** Two runs on the same tower, at wind speeds [V] and [V2 = c * V]: force
    and moment of the second run are [c ^ 2] times those of the first. *)
Variables (c V V2 : R) (exposure : string).
Hypothesis speed : V2 = c * V.

Lemma wind_sections_scale (sections : list PoleSection) :
  forall (st st2 : R * R) (height_cumulative : R),
    scaled_by (c ^ 2) st st2 ->
    exists r r2 hc,
      wind_sections sections V exposure (st, height_cumulative) = Ok (r, hc)
      /\ wind_sections sections V2 exposure (st2, height_cumulative) = Ok (r2, hc)
      /\ scaled_by (c ^ 2) r r2.
Proof.
  induction sections as [| section rest IH]; intros [f m] [f2 m2] hc Hs.
  - exists (f, m), (f2, m2), hc. repeat split; apply Hs.
  - simpl.
    destruct (calculate_kz_total (hc + height section / 1000 / 2) exposure) as [kz ->].
    simpl. apply IH.
    destruct Hs as [Hf Hm]; simpl in Hf, Hm. split; simpl; subst; ring.
Qed.

Lemma wind_items_scale (default_cf qz qz2 platform_height : R)
    (items : list Equipment) :
  qz2 = c ^ 2 * qz ->
  forall st st2 : R * R,
    scaled_by (c ^ 2) st st2 ->
    scaled_by (c ^ 2) (wind_items items default_cf qz platform_height st)
           (wind_items items default_cf qz2 platform_height st2).
Proof.
  intros Hq. induction items as [| item rest IH]; intros [f m] [f2 m2] Hs.
  - exact Hs.
  - simpl. apply IH.
    destruct Hs as [Hf Hm]; simpl in Hf, Hm. split; simpl; subst; ring.
Qed.

Lemma wind_platforms_scale (platforms : list CrownPlatform) :
  forall st st2 : R * R,
    scaled_by (c ^ 2) st st2 ->
    exists r r2,
      wind_platforms platforms V exposure st = Ok r
      /\ wind_platforms platforms V2 exposure st2 = Ok r2
      /\ scaled_by (c ^ 2) r r2.
Proof.
  induction platforms as [| platform rest IH]; intros st st2 Hs.
  - exists st, st2. repeat split; apply Hs.
  - cbn [wind_platforms].
    destruct (calculate_kz_total (platform_height platform) exposure) as [kz ->].
    cbn [bind]. apply IH.
    set (qz := 0.613 * kz * kzt * kd * V ^ 2).
    set (qz2 := 0.613 * kz * kzt * kd * V2 ^ 2).
    assert (Hq : qz2 = c ^ 2 * qz) by (unfold qz, qz2; subst V2; ring).
    pose proof (wind_items_scale 1.2 qz qz2 (platform_height platform)
                  (get (antennas platform) []) Hq st st2 Hs) as Ha.
    pose proof (wind_items_scale 1.0 qz qz2 (platform_height platform)
                  (get (rrus platform) []) Hq _ _ Ha) as Hr.
    destruct (Rgt_dec (get (platform_wind_area_m2 platform) 0) 0); [| exact Hr].
    destruct (wind_items (get (rrus platform) []) 1.0 qz _ _) as [f m].
    destruct (wind_items (get (rrus platform) []) 1.0 qz2 _ _) as [f2 m2].
    destruct Hr as [Hf Hm]; simpl in Hf, Hm.
    clearbody qz qz2. subst f2 m2 qz2. split; cbn [fst snd]; ring.
Qed.

Lemma calculate_wind_load_scale (sections : list PoleSection)
    (crown_platforms : option (list CrownPlatform)) :
  exists F M,
    calculate_wind_load sections V exposure crown_platforms = Ok (F, M)
    /\ calculate_wind_load sections V2 exposure crown_platforms
       = Ok (c ^ 2 * F, c ^ 2 * M).
Proof.
  unfold calculate_wind_load.
  destruct (wind_sections_scale sections (0, 0) (0, 0) 0) as (r & r2 & hc & -> & -> & Hs).
  { split; simpl; ring. }
  simpl.
  assert (Hpair : forall a a2 : R * R, scaled_by (c ^ 2) a a2 ->
            exists F M, Ok a = Ok (F, M) /\ Ok a2 = Ok (c ^ 2 * F, c ^ 2 * M)).
  { intros [F M] [F2 M2] [Hf Hm]; simpl in Hf, Hm. exists F, M. now subst. }
  destruct r as [f m], r2 as [f2 m2].
  destruct (truthy crown_platforms).
  - destruct (wind_platforms_scale (get crown_platforms []) (f, m) (f2, m2) Hs)
      as (a & a2 & -> & -> & Ha).
    exact (Hpair _ _ Ha).
  - exact (Hpair _ _ Hs).
Qed.

End WindScaling.

(** C7. For every sections list, exposure and crown platforms,
    [calculate_wind_load] at wind speed 0 returns force 0 and moment 0. *)
Theorem calculate_wind_load_zero_speed :
  forall (sections : list PoleSection) (exposure : string)
         (crown_platforms : option (list CrownPlatform)),
    calculate_wind_load sections 0 exposure crown_platforms = Ok (0, 0).
Proof.
  intros sections exposure crown_platforms.
  destruct (calculate_wind_load_scale 0 0 0 exposure ltac:(ring) sections crown_platforms)
    as (F & M & _ & E).
  rewrite E. f_equal. f_equal; ring.
Qed.

(** C8. For every sections list, crown platforms, exposure and wind speed
    [V], both runs return, and the run at [2 * V] returns 4 times the force
    and 4 times the moment of the run at [V]. *)
Theorem calculate_wind_load_double_speed :
  forall (sections : list PoleSection) (crown_platforms : option (list CrownPlatform))
         (exposure : string) (V : R),
    exists F M,
      calculate_wind_load sections V exposure crown_platforms = Ok (F, M)
      /\ calculate_wind_load sections (2 * V) exposure crown_platforms
         = Ok (4 * F, 4 * M).
Proof.
  intros sections crown_platforms exposure V.
  destruct (calculate_wind_load_scale 2 V (2 * V) exposure eq_refl sections crown_platforms)
    as (F & M & E1 & E2).
  exists F, M. split; [exact E1 |]. rewrite E2. f_equal. f_equal; ring.
Qed.

(** ** calculate_load_combinations *)

(** [max] with a key returns the first element that attains the maximum. *)
Lemma max_from_first (A : Type) (key : A -> R) (rest : list A) :
  forall best : A,
    let r := max_from key best rest in
    (forall x, In x (best :: rest) -> key x <= key r)
    /\ exists pre post,
         best :: rest = pre ++ r :: post /\ forall x, In x pre -> key x < key r.
Proof.
  induction rest as [| y rest IH]; intros best; simpl.
  - split.
    + intros x [<- | []]. lra.
    + exists [], []. split; [reflexivity | intros x []].
  - destruct (Rgt_dec (key y) (key best)) as [Hgt | Hle].
    + destruct (IH y) as [Hmax (pre & post & E & Hpre)]. simpl in Hmax, E, Hpre.
      assert (Hy : key y <= key (max_from key y rest)) by (apply Hmax; now left).
      split.
      * intros x [<- | Hx]; [lra | now apply Hmax].
      * exists (best :: pre), post. split; [simpl; now rewrite E |].
        intros x [<- | Hx]; [lra | now apply Hpre].
    + destruct (IH best) as [Hmax (pre & post & E & Hpre)]. simpl in Hmax, E, Hpre.
      assert (Hb : key best <= key (max_from key best rest)) by (apply Hmax; now left).
      split.
      * intros x [<- | [<- | Hx]]; [exact Hb | lra | apply Hmax; now right].
      * destruct pre as [| b pre]; simpl in E.
        -- injection E as Eb Er. exists [], (y :: rest). split.
           ++ simpl. now rewrite <- Eb.
           ++ intros x [].
        -- injection E as Eb Er. subst b. exists (best :: y :: pre), post. split.
           ++ simpl. now rewrite <- Er.
           ++ assert (Hlt : key best < key (max_from key best rest))
                by (apply Hpre; now left).
              intros x [<- | [<- | Hx]]; [exact Hlt | lra | apply Hpre; now right].
Qed.

(** [max] of the values is the value of the [max] item. *)
Lemma max_from_values (A : Type) (key : A -> R) (rest : list A) :
  forall best : A,
    max_from (fun x => x) (key best) (map key rest) = key (max_from key best rest).
Proof.
  induction rest as [| y rest IH]; intros best; simpl; [reflexivity |].
  destruct (Rgt_dec (key y) (key best)); apply IH.
Qed.

Lemma utilizations_of_ok (governing_moment : R) (combinations : list (string * R)) :
  governing_moment <> 0 ->
  utilizations_of combinations governing_moment
  = Ok (map (fun c => (fst c, snd c / governing_moment)) combinations).
Proof.
  intros Hg. induction combinations as [| [name moment] rest IH]; simpl; [reflexivity |].
  rewrite (pydiv_ok _ _ Hg); simpl. rewrite IH; reflexivity.
Qed.

(** With a zero governing moment the first utilization already raises. *)
Lemma calculate_load_combinations_zero (wind_moment_nm applied_moment_nm : R) :
  calculate_load_combinations wind_moment_nm applied_moment_nm 0
  = Raise ZeroDivisionError.
Proof.
  unfold calculate_load_combinations, load_combinations; simpl.
  now rewrite pydiv_zero.
Qed.

(** One run of [calculate_load_combinations] on a non-zero governing moment. *)
Lemma load_combinations_run (wind applied governing_moment : R) :
  governing_moment <> 0 ->
  exists utilizations governing_combo max_utilization,
    calculate_load_combinations wind applied governing_moment
    = Ok (load_combinations wind applied, utilizations, governing_combo,
          max_utilization)
    /\ utilizations
       = map (fun c => (fst c, snd c / governing_moment))
           (load_combinations wind applied)
    /\ In max_utilization (map snd utilizations)
    /\ (forall u, In u (map snd utilizations) -> u <= max_utilization)
    /\ exists pre post,
         utilizations = pre ++ (governing_combo, max_utilization) :: post
         /\ forall x, In x pre -> snd x < max_utilization.
Proof.
  intros Hg. rename governing_moment into g.
  unfold calculate_load_combinations.
  rewrite (utilizations_of_ok g _ Hg).
  set (us := map (fun c => (fst c, snd c / g)) (load_combinations wind applied)).
  assert (Eus : exists u0 tl, us = u0 :: tl) by (unfold us; simpl; eauto).
  destruct Eus as (u0 & tl & Eus).
  cbn [bind]. rewrite Eus. cbn [map py_max bind].
  rewrite (max_from_values _ snd tl u0).
  destruct (max_from_first _ snd tl u0) as [Hmax (pre & post & E & Hpre)].
  set (r := max_from snd u0 tl) in *.
  exists us, (fst r), (snd r).
  split; [now rewrite Eus | split; [exact Eus |]].
  assert (Hin : In r us).
  { rewrite Eus, E. apply in_or_app. right. now left. }
  split; [apply in_map; exact Hin |].
  split.
  - intros u Hu. apply in_map_iff in Hu as (x & <- & Hx). apply Hmax. now rewrite <- Eus.
  - exists pre, post. split; [| exact Hpre].
    rewrite Eus, E. now destruct r.
Qed.

(** C5. [calculate_load_combinations] returns exactly the eight named
    combinations, in this order, with the demand moments of the table; each
    utilization is [demand / governing_moment]; [max_utilization] is the
    maximum of the eight utilizations; [governing_combo] is the first
    combination, in table order, that attains it.  The governing moment is
    not zero (the utilization is a quotient by it). *)
Theorem calculate_load_combinations_table :
  forall wind applied governing_moment : R,
    governing_moment <> 0 ->
    exists utilizations governing_combo max_utilization,
      let combinations :=
        [("LRFD_1.4D", 0);
         ("LRFD_1.2D+1.6W", applied + 1.6 * wind);
         ("LRFD_1.2D+1.0W", applied + 1.0 * wind);
         ("LRFD_0.9D+1.6W", applied + 1.6 * wind);
         ("ASD_D", 0);
         ("ASD_D+W", applied + wind);
         ("ASD_D+0.75W", applied + 0.75 * wind);
         ("ASD_0.6D+0.6W", applied + 0.6 * wind)] in
      calculate_load_combinations wind applied governing_moment
      = Ok (combinations, utilizations, governing_combo, max_utilization)
      /\ utilizations
         = map (fun c => (fst c, snd c / governing_moment)) combinations
      /\ In max_utilization (map snd utilizations)
      /\ (forall u, In u (map snd utilizations) -> u <= max_utilization)
      /\ exists pre post,
           utilizations = pre ++ (governing_combo, max_utilization) :: post
           /\ forall x, In x pre -> snd x < max_utilization.
Proof.
  intros wind applied governing_moment Hg.
  exact (load_combinations_run wind applied governing_moment Hg).
Qed.

(** A run with a tie: both 1.6 W combinations reach 0.8, and the first in
    table order is the governing one. *)
Example calculate_load_combinations_tie :
  calculate_load_combinations 1000 0 2000
  = Ok (load_combinations 1000 0,
        [("LRFD_1.4D", 0 / 2000);
         ("LRFD_1.2D+1.6W", (0 + 1.6 * 1000) / 2000);
         ("LRFD_1.2D+1.0W", (0 + 1.0 * 1000) / 2000);
         ("LRFD_0.9D+1.6W", (0 + 1.6 * 1000) / 2000);
         ("ASD_D", 0 / 2000);
         ("ASD_D+W", (0 + 1000) / 2000);
         ("ASD_D+0.75W", (0 + 0.75 * 1000) / 2000);
         ("ASD_0.6D+0.6W", (0 + 0.6 * 1000) / 2000)],
        "LRFD_1.2D+1.6W", (0 + 1.6 * 1000) / 2000).
Proof.
  unfold calculate_load_combinations.
  rewrite utilizations_of_ok by lra.
  cbn [load_combinations map fst snd bind py_max max_from].
  repeat decide_cmp; reflexivity.
Qed.

Lemma calculate_load_combinations_table_witness :
  2000 <> 0
  /\ exists utilizations governing_combo max_utilization,
       calculate_load_combinations 1000 0 2000
       = Ok (load_combinations 1000 0, utilizations, governing_combo, max_utilization)
       /\ In max_utilization (map snd utilizations)
       /\ forall u, In u (map snd utilizations) -> u <= max_utilization.
Proof.
  assert (H : 2000 <> 0) by lra.
  split; [exact H |].
  destruct (calculate_load_combinations_table 1000 0 2000 H)
    as (us & combo & mu & E & _ & Hin & Hmax & _).
  exists us, combo, mu. split; [exact E | split; [exact Hin | exact Hmax]].
Defined.

(** ** calculate_dead_load *)

Lemma dead_sections_sum (sections : list PoleSection) :
  forall total_weight_kg : R,
    dead_sections sections total_weight_kg
    = fold_left Rplus (map section_weight sections) total_weight_kg.
Proof.
  induction sections as [| section rest IH]; intros w; simpl; [reflexivity | apply IH].
Qed.

(** C2 (as the code has it).  [calculate_dead_load] makes no check of the
    bore: for every sections list and crown platforms, also with a section
    whose inner radius [d_avg / 2 - thickness] is not positive, it returns
    a pair of weights and never raises; the pole weight is the sum over the
    sections of [(pi * (d_avg / 2) ^ 2 * h - pi * (d_avg / 2 - t) ^ 2 * h)
    * 7850], lengths in metres. *)
Theorem calculate_dead_load_total :
  forall (sections : list PoleSection) (crown_platforms : option (list CrownPlatform)),
    (exists crown_weight,
        calculate_dead_load sections crown_platforms
        = Ok (sum (map section_weight sections), crown_weight))
    /\ (forall section : PoleSection,
          section_weight section
          = (PI * ((diameter_top section + diameter_bottom section) / 2 / 1000 / 2) ^ 2
               * (height section / 1000)
             - PI * ((diameter_top section + diameter_bottom section) / 2 / 1000 / 2
                     - thickness section / 1000) ^ 2
               * (height section / 1000))
            * 7850)
    /\ forall e : exn, calculate_dead_load sections crown_platforms <> Raise e.
Proof.
  intros sections crown_platforms. unfold calculate_dead_load.
  rewrite dead_sections_sum. fold (sum (map section_weight sections)).
  split; [eauto | split; [reflexivity | discriminate]].
Qed.

(** C2, the claim as stated, fails: a section 100 mm wide with a 60 mm wall
    has inner radius [-0.01] m, and [calculate_dead_load] returns the
    weight [18.84 * pi] kg for it. *)
Lemma calculate_dead_load_accepts_closed_bore :
  let section := mkSection 1000 100 100 60 in
  (diameter_top section + diameter_bottom section) / 2 / 1000 / 2
    - thickness section / 1000 <= 0
  /\ (exists pole_weight,
        calculate_dead_load [section] None = Ok (pole_weight, 0)
        /\ pole_weight = 18.84 * PI)
  /\ forall e : exn, calculate_dead_load [section] None <> Raise e.
Proof.
  cbv zeta. split; [simpl; lra |]. split; [| discriminate].
  eexists. split; [reflexivity |].
  cbv [dead_sections section_weight steel_density
         height diameter_top diameter_bottom thickness]. lra.
Qed.

(** ** calculate_foundation_capacity *)

(** C3 (as the code has it).  [calculate_foundation_capacity] makes no
    check of its parameters: for every [foundation_params], also with a
    bolt count, bolt diameter or bolt circle that is not positive, it
    returns the pair of the allowable moment
    [(n / 2) * capacity * (circle / 2) / 2] and the bolt tensile capacity
    [pi * d ^ 2 / 4 * grade * 1e6 * 0.75], and never raises. *)
Theorem calculate_foundation_capacity_total :
  forall foundation_params : FoundationParams,
    let d := bolt_diameter foundation_params / 1000 in
    let circle := bolt_circle_diameter foundation_params / 1000 in
    let capacity := PI * d ^ 2 / 4 * bolt_grade foundation_params * 1e6 * 0.75 in
    calculate_foundation_capacity foundation_params
    = Ok (number_of_bolts foundation_params / 2 * capacity * (circle / 2) / 2.0,
          capacity)
    /\ forall e : exn, calculate_foundation_capacity foundation_params <> Raise e.
Proof.
  intros p. cbv zeta. split; [reflexivity | discriminate].
Qed.

(** C3, the claim as stated, fails: with no bolt at all the call returns an
    allowable moment of 0. *)
Lemma calculate_foundation_capacity_accepts_no_bolts :
  let foundation_params := mkFoundation 750 0 22 420 in
  number_of_bolts foundation_params <= 0
  /\ (exists allowable capacity,
        calculate_foundation_capacity foundation_params = Ok (allowable, capacity)
        /\ allowable = 0)
  /\ forall e : exn, calculate_foundation_capacity foundation_params <> Raise e.
Proof.
  cbv zeta. split; [simpl; lra |]. split; [| discriminate].
  do 2 eexists. split; [reflexivity |]. simpl. lra.
Qed.

(** ** analyze_monopole *)

Lemma bind_ok_inv (A B : Type) (m : result A) (k : A -> result B) (b : B) :
  bind m k = Ok b -> exists a, m = Ok a /\ k a = Ok b.
Proof.
  destruct m as [a | e]; simpl; [eauto | discriminate].
Qed.

Lemma dict_item_in (V : Type) (d : list (string * V)) (k : string) :
  In k (map fst d) -> exists v, dict_item d k = Ok v.
Proof.
  induction d as [| [k' v] d IH]; simpl; [intros [] |].
  intros [E | Hin].
  - subst k'. rewrite String.eqb_refl. eauto.
  - destruct (String.eqb k k'); [eauto | now apply IH].
Qed.

Lemma calculate_wind_load_total (sections : list PoleSection) (V : R)
    (exposure : string) (crown_platforms : option (list CrownPlatform)) :
  exists F M, calculate_wind_load sections V exposure crown_platforms = Ok (F, M).
Proof.
  destruct (calculate_wind_load_scale 1 V V exposure ltac:(ring) sections crown_platforms)
    as (F & M & E & _).
  eauto.
Qed.

(** [analyze_monopole] returns as soon as the sections list is not empty,
    the pole capacity is computed (the base diameter is not 0) and the
    governing moment is not 0; the governing element is the one of step 4. *)
Lemma analyze_monopole_returns (section : PoleSection) (rest : list PoleSection)
    (applied_load_kg wind_speed_ms : R) (exposure steel_grade : string)
    (foundation_params : option FoundationParams)
    (crown_platforms : option (list CrownPlatform))
    (capacity modulus governing_moment : R) (element : string) :
  calculate_moment_capacity (diameter_bottom section) (thickness section) steel_grade
  = Ok (capacity, modulus) ->
  governing (capacity / 2.0) foundation_params = Ok (governing_moment, element) ->
  governing_moment <> 0 ->
  exists r,
    analyze_monopole (section :: rest) applied_load_kg wind_speed_ms exposure
      steel_grade foundation_params crown_platforms = Ok r
    /\ governing_element r = element.
Proof.
  intros Hcap Hgov Hg.
  unfold analyze_monopole, calculate_dead_load. cbn [bind list_first].
  rewrite Hcap. cbn [bind]. rewrite Hgov. cbn [bind].
  set (total_height_m := sum (map height (section :: rest)) / 1000).
  assert (Hwind : exists F M,
            (if Rgt_dec wind_speed_ms 0
             then calculate_wind_load (section :: rest) wind_speed_ms exposure
                    crown_platforms
             else Ok (0, 0)) = Ok (F, M)).
  { destruct (Rgt_dec wind_speed_ms 0); [apply calculate_wind_load_total | eauto]. }
  destruct Hwind as (F & M & ->). cbn [bind].
  destruct (load_combinations_run M (applied_load_kg * gravity * total_height_m)
              governing_moment Hg)
    as (us & combo & mu & -> & Eus & _ & _ & pre & post & Esplit & _).
  cbn [bind].
  assert (Hkey : In combo (map fst (load_combinations M
                                      (applied_load_kg * gravity * total_height_m)))).
  { assert (Hin : In (combo, mu) us)
      by (rewrite Esplit; apply in_or_app; right; now left).
    rewrite Eus in Hin. apply in_map_iff in Hin as (c & Ec & Hc).
    injection Ec as <- _. now apply in_map. }
  destruct (dict_item_in _ _ _ Hkey) as [moment ->]. cbn [bind].
  destruct (Rgt_dec total_height_m 0) as [Hh | Hh].
  - assert (Hden : gravity * total_height_m <> 0) by (unfold gravity; nra).
    rewrite !(pydiv_ok _ _ Hden). cbn [bind]. eexists. split; reflexivity.
  - cbn [bind]. eexists. split; reflexivity.
Qed.

(** C10. For the empty sections list [analyze_monopole] returns no result:
    whatever the other arguments, reading [sections[0]] raises
    [IndexError]. *)
Theorem analyze_monopole_empty_sections :
  forall (applied_load_kg wind_speed_ms : R) (exposure steel_grade : string)
         (foundation_params : option FoundationParams)
         (crown_platforms : option (list CrownPlatform)),
    analyze_monopole [] applied_load_kg wind_speed_ms exposure steel_grade
      foundation_params crown_platforms = Raise IndexError
    /\ forall r : AnalysisResult,
         analyze_monopole [] applied_load_kg wind_speed_ms exposure steel_grade
           foundation_params crown_platforms <> Ok r.
Proof.
  intros. split; [reflexivity | discriminate].
Qed.

(** The status is the one of the if-chain, read on [max_utilization]. *)
Lemma analyze_monopole_status_of (sections : list PoleSection)
    (applied_load_kg wind_speed_ms : R) (exposure steel_grade : string)
    (foundation_params : option FoundationParams)
    (crown_platforms : option (list CrownPlatform)) (r : AnalysisResult) :
  analyze_monopole sections applied_load_kg wind_speed_ms exposure steel_grade
    foundation_params crown_platforms = Ok r ->
  status r = status_of (max_utilization r).
Proof.
  unfold analyze_monopole. intros H.
  repeat (apply bind_ok_inv in H; destruct H as (? & _ & H);
          repeat match goal with
                 | x : (_ * _)%type |- _ => destruct x
                 end).
  injection H as <-. reflexivity.
Qed.

Lemma status_of_bands (u : R) :
  (1.0 < u -> status_of u = "FAIL - Structure is overstressed!")
  /\ (0.9 < u <= 1.0 -> status_of u = "CRITICAL - Very high utilization")
  /\ (0.8 < u <= 0.9 -> status_of u = "WARNING - High utilization")
  /\ (0.6 < u <= 0.8 -> status_of u = "GOOD - Adequately designed")
  /\ (u <= 0.6 -> status_of u = "CONSERVATIVE - Significant reserve capacity").
Proof.
  unfold status_of.
  repeat split; intros Hu; repeat decide_cmp; reflexivity.
Qed.

(** C9. Whenever [analyze_monopole] returns a result [r], its status is a
    function of [max_utilization r] alone: the FAIL message above 1.0, the
    CRITICAL one in (0.9, 1.0], the WARNING one in (0.8, 0.9], the GOOD one
    in (0.6, 0.8] and the CONSERVATIVE one up to 0.6. *)
Theorem analyze_monopole_status :
  forall (sections : list PoleSection) (applied_load_kg wind_speed_ms : R)
         (exposure steel_grade : string)
         (foundation_params : option FoundationParams)
         (crown_platforms : option (list CrownPlatform)) (r : AnalysisResult),
    analyze_monopole sections applied_load_kg wind_speed_ms exposure steel_grade
      foundation_params crown_platforms = Ok r ->
    let u := max_utilization r in
    status r = status_of u
    /\ (1.0 < u -> status r = "FAIL - Structure is overstressed!")
    /\ (0.9 < u <= 1.0 -> status r = "CRITICAL - Very high utilization")
    /\ (0.8 < u <= 0.9 -> status r = "WARNING - High utilization")
    /\ (0.6 < u <= 0.8 -> status r = "GOOD - Adequately designed")
    /\ (u <= 0.6 -> status r = "CONSERVATIVE - Significant reserve capacity").
Proof.
  intros sections applied_load_kg wind_speed_ms exposure steel_grade
         foundation_params crown_platforms r H u.
  rewrite (analyze_monopole_status_of _ _ _ _ _ _ _ _ H). fold u.
  split; [reflexivity | apply status_of_bands].
Qed.

(** *** The 628 mm pole on a 750 mm bolt circle *)

(** Allowable moment of the pole (base diameter 628 mm, wall 5 mm, S355)
    and of the foundation ([n] bolts of 22 mm, grade 420 MPa, on a 750 mm
    circle), as steps 3 and 4 compute them. *)
Lemma pole_628_capacity :
  calculate_moment_capacity 628 5 "S355"
  = Ok (PI / 32 * ((628 / 1000) ^ 4 - (628 / 1000 - 2 * (5 / 1000)) ^ 4)
          / (628 / 1000) * 355 * 1e6,
        PI / 32 * ((628 / 1000) ^ 4 - (628 / 1000 - 2 * (5 / 1000)) ^ 4)
          / (628 / 1000)).
Proof.
  unfold calculate_moment_capacity. cbn [dict_get yield_strengths String.eqb Ascii.eqb Bool.eqb].
  rewrite pydiv_ok by lra. reflexivity.
Qed.

(** The foundation governs up to 23 bolts and the pole from 24 bolts on:
    the allowable moments are [n * pi * 3573.28125] N.m for the foundation
    and about [pi * 85436] N.m for the pole. *)
Lemma governing_628_by_bolts (n : R) :
  let pole :=
    PI / 32 * ((628 / 1000) ^ 4 - (628 / 1000 - 2 * (5 / 1000)) ^ 4)
      / (628 / 1000) * 355 * 1e6 / 2.0 in
  let foundation_params := Some (mkFoundation 750 n 22 420) in
  (0 < n <= 23 ->
   exists g, governing pole foundation_params = Ok (g, "FOUNDATION") /\ g <> 0)
  /\ (24 <= n ->
      exists g, governing pole foundation_params = Ok (g, "POLE") /\ g <> 0).
Proof.
  cbv zeta.
  unfold governing, calculate_foundation_capacity, py_min.
  cbn [bind bolt_circle_diameter number_of_bolts bolt_diameter bolt_grade].
  pose proof PI_RGT_0 as Hpi.
  split; intros Hn.
  - assert (Hnp : 0 < n * PI <= 23 * PI) by nra.
    destruct (Rlt_dec _ _) as [Hlt | Hge].
    + eexists. split; [reflexivity | nra].
    + exfalso. apply Hge. nra.
  - assert (Hnp : 24 * PI <= n * PI) by nra.
    destruct (Rlt_dec _ _) as [Hlt | Hge].
    + exfalso. nra.
    + eexists. split; [reflexivity | nra].
Qed.

Lemma analyze_628_by_bolts (n h d_top applied_load_kg wind_speed_ms : R)
    (exposure : string) (crown_platforms : option (list CrownPlatform)) :
  let run :=
    analyze_monopole [mkSection h d_top 628 5] applied_load_kg wind_speed_ms
      exposure "S355" (Some (mkFoundation 750 n 22 420)) crown_platforms in
  (0 < n <= 23 -> exists r, run = Ok r /\ governing_element r = "FOUNDATION")
  /\ (24 <= n -> exists r, run = Ok r /\ governing_element r = "POLE").
Proof.
  cbv zeta. destruct (governing_628_by_bolts n) as [Hlow Hhigh].
  split; intros Hn.
  - destruct (Hlow Hn) as (g & Hgov & Hg).
    eapply analyze_monopole_returns; [exact pole_628_capacity | exact Hgov | exact Hg].
  - destruct (Hhigh Hn) as (g & Hgov & Hg).
    eapply analyze_monopole_returns; [exact pole_628_capacity | exact Hgov | exact Hg].
Qed.

(** C1 (as the code has it).  For a single-section pole of base diameter
    628 mm, wall 5 mm and grade S355 on a foundation of 22 mm bolts of grade
    420 MPa on a 750 mm circle, whatever the height, top diameter, load,
    wind, exposure and platforms: with 16 bolts [analyze_monopole] returns
    governing element FOUNDATION, with 4 bolts FOUNDATION again, and POLE
    with 24 bolts. *)
Theorem governing_element_628_pole :
  forall (h d_top applied_load_kg wind_speed_ms : R) (exposure : string)
         (crown_platforms : option (list CrownPlatform)),
    let run n :=
      analyze_monopole [mkSection h d_top 628 5] applied_load_kg wind_speed_ms
        exposure "S355" (Some (mkFoundation 750 n 22 420)) crown_platforms in
    (exists r, run 16 = Ok r /\ governing_element r = "FOUNDATION")
    /\ (exists r, run 4 = Ok r /\ governing_element r = "FOUNDATION")
    /\ (exists r, run 24 = Ok r /\ governing_element r = "POLE").
Proof.
  intros h d_top applied_load_kg wind_speed_ms exposure crown_platforms. cbv zeta.
  split; [| split].
  - apply (analyze_628_by_bolts 16). lra.
  - apply (analyze_628_by_bolts 4). lra.
  - apply (analyze_628_by_bolts 24). lra.
Qed.

(** C1, the claim as stated, fails: on the 15 m tower of the script (top
    diameter 250 mm, no load, wind 20 m/s, exposure C, no platform) with 16
    bolts the governing element is FOUNDATION, not POLE. *)
Lemma governing_element_16_bolts_not_pole :
  exists r,
    analyze_monopole [mkSection 15000 250 628 5] 0 20 "C" "S355"
      (Some (mkFoundation 750 16 22 420)) None = Ok r
    /\ governing_element r = "FOUNDATION"
    /\ governing_element r <> "POLE".
Proof.
  destruct (analyze_628_by_bolts 16 15000 250 0 20 "C" None) as [Hlow _].
  destruct (Hlow ltac:(lra)) as (r & Hr & Hel).
  exists r. split; [exact Hr | split; [exact Hel |]].
  rewrite Hel. discriminate.
Qed.

(** A run that returns: the 15 m tower of the script without platforms. *)
Lemma analyze_monopole_status_witness :
  exists r,
    analyze_monopole [mkSection 15000 250 628 5] 0 20 "C" "S355"
      (Some (mkFoundation 750 16 22 420)) None = Ok r
    /\ status r = status_of (max_utilization r)
    /\ (max_utilization r <= 0.6 ->
        status r = "CONSERVATIVE - Significant reserve capacity").
Proof.
  destruct (analyze_628_by_bolts 16 15000 250 0 20 "C" None) as [Hlow _].
  destruct (Hlow ltac:(lra)) as (r & Hr & _).
  exists r. split; [exact Hr |].
  destruct (analyze_monopole_status _ _ _ _ _ _ _ r Hr) as (Hs & _ & _ & _ & _ & Hc).
  split; [exact Hs | exact Hc].
Defined.

(** * Further properties of the engine *)

(** ** calculate_kz: bounds and the step into the power law *)

Lemma Rpower_ge_1 (x y : R) : 1 <= x -> 0 <= y -> 1 <= Rpower x y.
Proof.
  intros Hx Hy.
  replace 1 with (Rpower 1 y) at 1
    by (unfold Rpower; rewrite ln_1, Rmult_0_r; apply exp_0).
  apply Rle_Rpower_l; [exact Hy | lra].
Qed.

(** A root is below a bound as soon as the powers compare:
    [x ** (p / q) < c] when [x ^ p < c ^ q]. *)
Lemma Rpower_lt_bound (x c e : R) (p q : nat) :
  0 < x -> 0 < c -> (0 < q)%nat -> e * INR q = INR p ->
  x ^ p < c ^ q -> Rpower x e < c.
Proof.
  intros Hx Hc Hq He Hpow.
  destruct (Rlt_le_dec (Rpower x e) c) as [Hlt | Hge]; [exact Hlt | exfalso].
  assert (H : Rpower c (INR q) <= Rpower (Rpower x e) (INR q)).
  { apply Rle_Rpower_l; [apply pos_INR | lra]. }
  rewrite Rpower_mult, He in H.
  rewrite !Rpower_pow in H by assumption. lra.
Qed.

Lemma kz_lower_bound (h : R) (e : string) :
  exists kz,
    calculate_kz h e = Ok kz
    /\ base (dict_get exposure_params e exposure_C) <= kz
    /\ 0.57 <= kz.
Proof.
  unfold calculate_kz.
  assert (Hpow : forall t a, 0 < t -> 0 < a -> t <= h ->
            pydiv h t = Ok (h / t) /\ pydiv 2 a = Ok (2 / a)
            /\ float_pow (h / t) (2 / a) = Ok (Rpower (h / t) (2 / a))
            /\ 1 <= Rpower (h / t) (2 / a)).
  { intros t a Ht Ha Hle.
    assert (H1 : 1 <= h / t).
    { apply (Rmult_le_reg_r t); [exact Ht |]. unfold Rdiv.
      rewrite Rmult_assoc, Rinv_l by lra. lra. }
    repeat split.
    - apply pydiv_ok; lra.
    - apply pydiv_ok; lra.
    - apply float_pow_pos; lra.
    - apply Rpower_ge_1; [exact H1 |].
      apply Rlt_le, Rdiv_lt_0_compat; lra. }
  destruct (exposure_lookup e) as [E | [E | E]]; rewrite E;
    cbn [breakpoints base alpha exposure_C exposure_B exposure_D scan_breakpoints];
    repeat (match goal with
            | |- context [Rlt_dec h ?t] => destruct (Rlt_dec h t)
            end;
            [eexists; split; [reflexivity | split; lra] |]);
    cbn [list_first bind fst].
  - destruct (Hpow 4.6 9.5) as (E1 & E2 & E3 & Hge); try lra.
    rewrite E1; cbn [bind]; rewrite E2; cbn [bind]; rewrite E3; cbn [bind].
    eexists; split; [reflexivity | split; nra].
  - destruct (Hpow 9.1 7.0) as (E1 & E2 & E3 & Hge); try lra.
    rewrite E1; cbn [bind]; rewrite E2; cbn [bind]; rewrite E3; cbn [bind].
    eexists; split; [reflexivity | split; nra].
  - destruct (Hpow 4.6 11.5) as (E1 & E2 & E3 & Hge); try lra.
    rewrite E1; cbn [bind]; rewrite E2; cbn [bind]; rewrite E3; cbn [bind].
    eexists; split; [reflexivity | split; nra].
Qed.

(** X1. [calculate_kz] returns, for every height and exposure, a value that
    is at least the [base] of the table in use, hence at least 0.57. *)
Theorem calculate_kz_at_least_base :
  forall (h : R) (e : string),
    exists kz,
      calculate_kz h e = Ok kz
      /\ base (dict_get exposure_params e exposure_C) <= kz
      /\ 0.57 <= kz.
Proof.
  intros h e. exact (kz_lower_bound h e).
Qed.

(** X2. For exposures B and D [calculate_kz] is not non-decreasing: at the
    last threshold the power law starts below the last table value
    (0.66 for B at 15.2 m, 1.16 for D at 9.1 m). *)
Theorem calculate_kz_B_D_drop :
  (calculate_kz 15 "B" = Ok 0.66
   /\ exists kz, calculate_kz 15.2 "B" = Ok kz /\ kz < 0.66)
  /\ (calculate_kz 9 "D" = Ok 1.16
      /\ exists kz, calculate_kz 9.1 "D" = Ok kz /\ kz < 1.16).
Proof.
  split; split.
  - unfold calculate_kz; simpl. repeat decide_cmp. reflexivity.
  - exists (0.57 * Rpower (15.2 / 9.1) (2 / 7.0)). split.
    + unfold calculate_kz; simpl. repeat decide_cmp.
      rewrite !pydiv_ok by lra. cbn [bind].
      rewrite float_pow_pos by lra. reflexivity.
    + assert (H : Rpower (15.2 / 9.1) (2 / 7.0) < 0.66 / 0.57).
      { apply (Rpower_lt_bound _ _ _ 2 7); try lra; [repeat constructor | simpl; lra]. }
      lra.
  - unfold calculate_kz; simpl. repeat decide_cmp. reflexivity.
  - exists (1.03 * Rpower (9.1 / 4.6) (2 / 11.5)). split.
    + unfold calculate_kz; simpl. repeat decide_cmp.
      rewrite !pydiv_ok by lra. cbn [bind].
      rewrite float_pow_pos by lra. reflexivity.
    + assert (H : Rpower (9.1 / 4.6) (2 / 11.5) < 1.16 / 1.03).
      { apply (Rpower_lt_bound _ _ _ 4 23); try lra; [repeat constructor | simpl; lra]. }
      lra.
Qed.

(** ** calculate_dead_load: sums *)

Lemma fold_left_Rplus_acc (l : list R) :
  forall a : R, fold_left Rplus l a = a + fold_left Rplus l 0.
Proof.
  induction l as [| x l IH]; intros a; simpl; [lra |].
  rewrite (IH (a + x)), (IH (0 + x)). lra.
Qed.

Lemma sum_cons (x : R) (l : list R) : sum (x :: l) = x + sum l.
Proof.
  unfold sum; simpl. rewrite fold_left_Rplus_acc. lra.
Qed.



Lemma dead_sections_weight (sections : list PoleSection) :
  dead_sections sections 0 = sum (map section_weight sections).
Proof.
  now rewrite dead_sections_sum.
Qed.







(** X5. Each section weighs [7850 * pi * h * t * (d_avg - t)] kg (metres),
    so the pole weight is not negative as soon as every section has a
    height that is not negative and a wall between 0 and the average
    diameter. *)
Theorem calculate_dead_load_pole_weight_nonneg :
  forall (sections : list PoleSection) (crown_platforms : option (list CrownPlatform)),
    Forall (fun s => 0 <= height s
                     /\ 0 <= thickness s <= (diameter_top s + diameter_bottom s) / 2)
           sections ->
    (forall s, section_weight s
               = 7850 * PI * (height s / 1000) * (thickness s / 1000)
                 * ((diameter_top s + diameter_bottom s) / 2 / 1000
                    - thickness s / 1000))
    /\ exists w c, calculate_dead_load sections crown_platforms = Ok (w, c) /\ 0 <= w.
Proof.
  intros sections crown_platforms Hall.
  assert (Hform : forall s, section_weight s
               = 7850 * PI * (height s / 1000) * (thickness s / 1000)
                 * ((diameter_top s + diameter_bottom s) / 2 / 1000
                    - thickness s / 1000)).
  { intros s. unfold section_weight, steel_density. field. }
  split; [exact Hform |].
  unfold calculate_dead_load. rewrite dead_sections_weight.
  do 2 eexists. split; [reflexivity |].
  induction Hall as [| s rest [Hh [Ht0 Ht1]] _ IH]; [unfold sum; simpl; lra |].
  cbn [map]. rewrite sum_cons, Hform.
  pose proof PI_RGT_0 as Hpi.
  assert (0 <= 7850 * PI * (height s / 1000) * (thickness s / 1000)
               * ((diameter_top s + diameter_bottom s) / 2 / 1000 - thickness s / 1000)).
  { apply Rmult_le_pos; [apply Rmult_le_pos; [apply Rmult_le_pos |] |]; lra. }
  lra.
Qed.

Lemma calculate_dead_load_pole_weight_nonneg_witness :
  Forall (fun s => 0 <= height s
                   /\ 0 <= thickness s <= (diameter_top s + diameter_bottom s) / 2)
         [mkSection 15000 250 628 5]
  /\ exists w c, calculate_dead_load [mkSection 15000 250 628 5] None = Ok (w, c)
                 /\ 0 <= w.
Proof.
  assert (H : Forall (fun s => 0 <= height s
                   /\ 0 <= thickness s <= (diameter_top s + diameter_bottom s) / 2)
         [mkSection 15000 250 628 5]).
  { constructor; [simpl; lra | constructor]. }
  split; [exact H |].
  apply (calculate_dead_load_pole_weight_nonneg _ None H).
Defined.

(** ** calculate_wind_load: speed, sign, and what it reads *)


Lemma qz_nonneg (kz V : R) : 0 <= kz -> 0 <= 0.613 * kz * kzt * kd * V ^ 2.
Proof.
  intros Hkz. pose proof (pow2_ge_0 V) as HV. unfold kzt, kd.
  apply Rmult_le_pos; [| exact HV].
  apply Rmult_le_pos; [apply Rmult_le_pos; [apply Rmult_le_pos |] |]; lra.
Qed.

Lemma wind_sections_nonneg (V : R) (exposure : string) (sections : list PoleSection) :
  Forall nonneg_section sections ->
  forall f m hc : R,
    0 <= f -> 0 <= m -> 0 <= hc ->
    exists f' m' hc',
      wind_sections sections V exposure (f, m, hc) = Ok (f', m', hc')
      /\ 0 <= f' /\ 0 <= m'.
Proof.
  induction 1 as [| section rest (Hh & Ht & Hb) _ IH]; intros f m hc Hf Hm Hhc.
  - exists f, m, hc. repeat split; assumption.
  - cbn [wind_sections].
    destruct (kz_lower_bound (hc + height section / 1000 / 2) exposure)
      as (kz & -> & _ & Hkz).
    cbn [bind].
    pose proof (qz_nonneg kz V ltac:(lra)) as Hqz.
    set (qz := 0.613 * kz * kzt * kd * V ^ 2) in *.
    assert (Harea : 0 <= (diameter_top section + diameter_bottom section) / 2 / 1000
                         * (height section / 1000))
      by (apply Rmult_le_pos; lra).
    assert (Hforce : 0 <= qz * pole_cf
                          * ((diameter_top section + diameter_bottom section) / 2 / 1000
                             * (height section / 1000))).
    { apply Rmult_le_pos; [| exact Harea].
      apply Rmult_le_pos; [exact Hqz | unfold pole_cf; lra]. }
    apply IH; [lra | | lra].
    assert (0 <= hc + height section / 1000 / 2) by lra.
    apply Rplus_le_le_0_compat; [exact Hm | now apply Rmult_le_pos].
Qed.

Lemma get_nonneg (o : option R) (default : R) :
  nonneg_opt o -> 0 <= default -> 0 <= get o default.
Proof.
  destruct o; simpl; auto.
Qed.

Lemma wind_items_nonneg (default_cf qz platform_height : R) (items : list Equipment) :
  0 <= default_cf -> 0 <= qz -> 0 <= platform_height ->
  Forall nonneg_item items ->
  forall f m : R,
    0 <= f -> 0 <= m ->
    0 <= fst (wind_items items default_cf qz platform_height (f, m))
    /\ 0 <= snd (wind_items items default_cf qz platform_height (f, m)).
Proof.
  intros Hd Hq Hp. induction 1 as [| item rest [Hcf Harea] _ IH]; intros f m Hf Hm.
  - split; assumption.
  - cbn [wind_items].
    assert (Hforce : 0 <= qz * get (cf item) default_cf * get (wind_area_m2 item) 0).
    { apply Rmult_le_pos; [apply Rmult_le_pos |]; try assumption;
        apply get_nonneg; (assumption || lra). }
    apply IH; [lra |].
    apply Rplus_le_le_0_compat; [exact Hm | now apply Rmult_le_pos].
Qed.

Lemma wind_platforms_nonneg (V : R) (exposure : string) (platforms : list CrownPlatform) :
  Forall nonneg_platform platforms ->
  forall st : R * R,
    0 <= fst st -> 0 <= snd st ->
    exists F M,
      wind_platforms platforms V exposure st = Ok (F, M) /\ 0 <= F /\ 0 <= M.
Proof.
  induction 1 as [| platform rest (Hh & Hcf & Hant & Hrru) _ IH]; intros [f m] Hf Hm.
  - exists f, m. repeat split; assumption.
  - cbn [wind_platforms].
    destruct (kz_lower_bound (platform_height platform) exposure)
      as (kz & -> & _ & Hkz).
    cbn [bind].
    pose proof (qz_nonneg kz V ltac:(lra)) as Hqz.
    set (qz := 0.613 * kz * kzt * kd * V ^ 2) in *.
    destruct (wind_items_nonneg 1.2 qz (platform_height platform)
                (get (antennas platform) []) ltac:(lra) Hqz Hh Hant f m Hf Hm)
      as [Ha1 Ha2].
    destruct (wind_items (get (antennas platform) []) 1.2 qz _ _) as [f1 m1].
    destruct (wind_items_nonneg 1.0 qz (platform_height platform)
                (get (rrus platform) []) ltac:(lra) Hqz Hh Hrru f1 m1 Ha1 Ha2)
      as [Hr1 Hr2].
    destruct (wind_items (get (rrus platform) []) 1.0 qz _ _) as [f2 m2].
    cbn [fst snd] in Hr1, Hr2.
    destruct (Rgt_dec (get (platform_wind_area_m2 platform) 0) 0) as [Hpos | _].
    + assert (Hforce : 0 <= qz * get (platform_cf platform) 1.5
                            * get (platform_wind_area_m2 platform) 0).
      { apply Rmult_le_pos; [apply Rmult_le_pos |]; try assumption;
          [apply get_nonneg; (assumption || lra) | lra]. }
      apply IH; cbn [fst snd]; [lra |].
      apply Rplus_le_le_0_compat; [exact Hr2 | now apply Rmult_le_pos].
    + apply IH; assumption.
Qed.

(** X7. Wind force and overturning moment are not negative when heights,
    diameters, drag coefficients and wind areas are not negative, whatever
    the wind speed and the exposure. *)
Theorem calculate_wind_load_nonneg :
  forall (sections : list PoleSection) (V : R) (exposure : string)
         (crown_platforms : option (list CrownPlatform)),
    Forall nonneg_section sections ->
    Forall nonneg_platform (get crown_platforms []) ->
    exists F M,
      calculate_wind_load sections V exposure crown_platforms = Ok (F, M)
      /\ 0 <= F /\ 0 <= M.
Proof.
  intros sections V exposure crown_platforms Hs Hp.
  unfold calculate_wind_load.
  destruct (wind_sections_nonneg V exposure sections Hs 0 0 0)
    as (f & m & hc & -> & Hf & Hm); try lra.
  cbn [bind].
  destruct (truthy crown_platforms).
  - apply wind_platforms_nonneg; assumption.
  - exists f, m. repeat split; assumption.
Qed.

Lemma calculate_wind_load_nonneg_witness :
  let sections := [mkSection 15000 250 628 5] in
  let platform :=
    mkPlatform 14 (Some 150) (Some 1.5) (Some 1.5)
      (Some [mkEquipment (Some 40) (Some 1.5) (Some 1.2)])
      (Some [mkEquipment (Some 30) (Some 0.6) None])
      (Some [mkEquipment (Some 25) (Some 0.3) (Some 1.0)]) in
  Forall nonneg_section sections
  /\ Forall nonneg_platform (get (Some [platform]) [])
  /\ exists F M,
       calculate_wind_load sections 20 "C" (Some [platform]) = Ok (F, M)
       /\ 0 <= F /\ 0 <= M.
Proof.
  cbv zeta.
  assert (Hs : Forall nonneg_section [mkSection 15000 250 628 5]).
  { constructor; [unfold nonneg_section; simpl; lra | constructor]. }
  assert (Hp : Forall nonneg_platform
                 (get (Some [mkPlatform 14 (Some 150) (Some 1.5) (Some 1.5)
                               (Some [mkEquipment (Some 40) (Some 1.5) (Some 1.2)])
                               (Some [mkEquipment (Some 30) (Some 0.6) None])
                               (Some [mkEquipment (Some 25) (Some 0.3) (Some 1.0)])])
                      [])).
  { constructor; [| constructor].
    unfold nonneg_platform, nonneg_item; simpl.
    repeat split; try lra; (constructor; [simpl; split; (lra || exact I) | constructor]). }
  split; [exact Hs | split; [exact Hp |]].
  apply (calculate_wind_load_nonneg _ 20 "C" _ Hs Hp).
Defined.

Lemma wind_platforms_same_wind_data (V : R) (exposure : string)
    (ps qs : list CrownPlatform) :
  Forall2 (fun p q =>
             platform_height p = platform_height q
             /\ platform_wind_area_m2 p = platform_wind_area_m2 q
             /\ platform_cf p = platform_cf q
             /\ antennas p = antennas q
             /\ rrus p = rrus q) ps qs ->
  forall st : R * R,
    wind_platforms ps V exposure st = wind_platforms qs V exposure st.
Proof.
  induction 1 as [| p q ps qs (Eh & Ea & Ec & Eant & Erru) _ IH]; intros st.
  - reflexivity.
  - cbn [wind_platforms]. rewrite Eh, Ea, Ec, Eant, Erru.
    destruct (calculate_kz (platform_height q) exposure) as [kz | e]; [| reflexivity].
    cbn [bind]. apply IH.
Qed.

(** X8. The wind load reads, of a platform, its height, wind area, [cf],
    antennas and RRUs only: two platform lists that agree on these, and
    differ in [platform_weight_kg] and [other_equipment] at will, give the
    same force and moment. *)
Theorem calculate_wind_load_ignores_other_equipment :
  forall (sections : list PoleSection) (V : R) (exposure : string)
         (ps qs : list CrownPlatform),
    Forall2 (fun p q =>
               platform_height p = platform_height q
               /\ platform_wind_area_m2 p = platform_wind_area_m2 q
               /\ platform_cf p = platform_cf q
               /\ antennas p = antennas q
               /\ rrus p = rrus q) ps qs ->
    calculate_wind_load sections V exposure (Some ps)
    = calculate_wind_load sections V exposure (Some qs).
Proof.
  intros sections V exposure ps qs H.
  unfold calculate_wind_load.
  destruct (wind_sections sections V exposure (0, 0, 0)) as [[[f m] hc] | e];
    [| reflexivity].
  cbn [bind].
  assert (Ht : truthy (Some ps) = truthy (Some qs)) by (destruct H; reflexivity).
  rewrite Ht. destruct (truthy (Some qs)); [| reflexivity].
  apply wind_platforms_same_wind_data. exact H.
Qed.

(** Two platforms with the same wind data; the second carries 25 kg of
    other equipment and weighs 30 kg more: same wind load, other dead load. *)
Lemma calculate_wind_load_ignores_other_equipment_witness :
  let antenna := mkEquipment (Some 40) (Some 1.5) (Some 1.2) in
  let p := mkPlatform 14 (Some 120) (Some 1.5) (Some 1.5) (Some [antenna]) None None in
  let q := mkPlatform 14 (Some 150) (Some 1.5) (Some 1.5) (Some [antenna]) None
             (Some [mkEquipment (Some 25) (Some 0.3) (Some 1.0)]) in
  calculate_wind_load [mkSection 15000 250 628 5] 20 "C" (Some [p])
  = calculate_wind_load [mkSection 15000 250 628 5] 20 "C" (Some [q])
  /\ calculate_dead_load [mkSection 15000 250 628 5] (Some [p])
     <> calculate_dead_load [mkSection 15000 250 628 5] (Some [q]).
Proof.
  cbv zeta. split.
  - apply calculate_wind_load_ignores_other_equipment.
    constructor; [repeat split | constructor].
  - unfold calculate_dead_load. cbn [truthy get dead_platforms].
    intros H. injection H as H.
    unfold equipment_weights, sum in H; simpl in H. lra.
Defined.

(** ** calculate_moment_capacity *)

Lemma yield_lookup (steel_grade : string) :
  dict_get yield_strengths steel_grade 355 = 248
  \/ dict_get yield_strengths steel_grade 355 = 345
  \/ dict_get yield_strengths steel_grade 355 = 355.
Proof.
  unfold yield_strengths; cbn [dict_get].
  destruct (String.eqb steel_grade "A36"); [now left |].
  destruct (String.eqb steel_grade "A572-50"); [now right; left |].
  destruct (String.eqb steel_grade "A992"); [now right; left |].
  destruct (String.eqb steel_grade "S355"); now right; right.
Qed.

(** The capacity of a tube with a wall strictly between 0 and the diameter. *)
Lemma moment_capacity_positive (diameter_mm thickness_mm : R) (steel_grade : string) :
  0 < diameter_mm -> 0 < thickness_mm < diameter_mm ->
  exists capacity modulus,
    calculate_moment_capacity diameter_mm thickness_mm steel_grade
    = Ok (capacity, modulus)
    /\ 0 < modulus /\ 0 < capacity.
Proof.
  intros HD [Ht0 Ht1]. unfold calculate_moment_capacity.
  rewrite pydiv_ok by lra. cbn [bind].
  set (D := diameter_mm / 1000). set (t := thickness_mm / 1000).
  assert (HDpos : 0 < D) by (unfold D; lra).
  assert (Htpos : 0 < t < D) by (unfold t, D; lra).
  assert (Hnum : 0 < D ^ 4 - (D - 2 * t) ^ 4).
  { replace (D ^ 4 - (D - 2 * t) ^ 4)
      with (4 * t * (D - t) * (D ^ 2 + (D - 2 * t) ^ 2)) by ring.
    apply Rmult_lt_0_compat; [apply Rmult_lt_0_compat; nra | nra]. }
  pose proof PI_RGT_0 as Hpi.
  assert (Hmod : 0 < PI / 32 * (D ^ 4 - (D - 2 * t) ^ 4) / D).
  { apply Rdiv_lt_0_compat; [| exact HDpos].
    apply Rmult_lt_0_compat; [lra | exact Hnum]. }
  do 2 eexists. split; [reflexivity | split; [exact Hmod |]].
  destruct (yield_lookup steel_grade) as [-> | [-> | ->]];
    (apply Rmult_lt_0_compat; [apply Rmult_lt_0_compat; [exact Hmod | lra] | lra]).
Qed.




(** X11. The steel grade enters by its yield strength only: a grade other
    than the four names of the table is read as S355, and A992 as
    A572-50. *)
Theorem calculate_moment_capacity_grade_fallback :
  forall (diameter_mm thickness_mm : R) (steel_grade : string),
    (steel_grade <> "A36" -> steel_grade <> "A572-50" ->
     steel_grade <> "A992" -> steel_grade <> "S355" ->
     calculate_moment_capacity diameter_mm thickness_mm steel_grade
     = calculate_moment_capacity diameter_mm thickness_mm "S355")
    /\ calculate_moment_capacity diameter_mm thickness_mm "A992"
       = calculate_moment_capacity diameter_mm thickness_mm "A572-50".
Proof.
  intros D t g. split; [| reflexivity].
  intros H1 H2 H3 H4. unfold calculate_moment_capacity, yield_strengths.
  apply String.eqb_neq in H1, H2, H3, H4.
  cbn [dict_get]. rewrite H1, H2, H3, H4. reflexivity.
Qed.

Lemma calculate_moment_capacity_grade_fallback_witness :
  calculate_moment_capacity 628 5 "s355" = calculate_moment_capacity 628 5 "S355".
Proof.
  destruct (calculate_moment_capacity_grade_fallback 628 5 "s355") as [H _].
  apply H; discriminate.
Defined.

(** ** calculate_load_combinations: which combination governs *)

Lemma div_gt_pos (x y g : R) : 0 < g -> (x / g > y / g <-> x > y).
Proof.
  intros Hg. unfold Rdiv. pose proof (Rinv_0_lt_compat g Hg) as Hi. split; intros H.
  - apply (Rmult_lt_reg_r (/ g)); assumption.
  - apply Rmult_lt_compat_r; assumption.
Qed.

Lemma div_gt_neg (x y g : R) : g < 0 -> (x / g > y / g <-> x < y).
Proof.
  intros Hg. unfold Rdiv. pose proof (Rinv_lt_0_compat g Hg) as Hi.
  set (i := / g) in *. split; intros H.
  - destruct (Rlt_le_dec x y) as [Hlt | Hle]; [exact Hlt | exfalso; nra].
  - nra.
Qed.

(** Deciding a comparison of two utilizations on their demands. *)
Ltac decide_utilization Hg :=
  match goal with
  | |- context [Rgt_dec (?x / ?g) (?y / ?g)] =>
      let H := fresh "Hcmp" in
      destruct (Rgt_dec (x / g) (y / g)) as [H | H];
      [ first [ apply (proj1 (div_gt_pos x y g Hg)) in H
              | apply (proj1 (div_gt_neg x y g Hg)) in H ]
      | first [ assert (~ x > y) by (intros ?; apply H, (div_gt_pos x y g Hg); assumption)
              | assert (~ x < y) by (intros ?; apply H, (div_gt_neg x y g Hg); assumption) ];
        clear H ];
      try (exfalso; lra)
  end.

(** The run of [calculate_load_combinations], the two [max] left to
    evaluate. *)
Lemma load_combinations_unfold (wind applied g : R) :
  g <> 0 ->
  calculate_load_combinations wind applied g
  = let us := map (fun c => (fst c, snd c / g)) (load_combinations wind applied) in
    Ok (load_combinations wind applied, us,
        fst (max_from snd (hd ("", 0) us) (tl us)),
        snd (max_from snd (hd ("", 0) us) (tl us))).
Proof.
  intros Hg. unfold calculate_load_combinations.
  rewrite (utilizations_of_ok g _ Hg). cbn [bind].
  cbn [load_combinations map py_max bind hd tl fst snd].
  f_equal. f_equal.
  exact (max_from_values _ snd
           (tl (map (fun c => (fst c, snd c / g)) (load_combinations wind applied)))
           (hd ("", 0)
               (map (fun c => (fst c, snd c / g)) (load_combinations wind applied)))).
Qed.

(** X12. The three combinations that repeat an earlier demand never
    govern: [governing_combo] is not LRFD_0.9D+1.6W (same demand as
    LRFD_1.2D+1.6W), ASD_D (same as LRFD_1.4D) or ASD_D+W (same as
    LRFD_1.2D+1.0W). *)
Theorem governing_combo_never_a_repeat :
  forall wind applied governing_moment : R,
    governing_moment <> 0 ->
    exists combinations utilizations governing_combo max_utilization,
      calculate_load_combinations wind applied governing_moment
      = Ok (combinations, utilizations, governing_combo, max_utilization)
      /\ governing_combo <> "LRFD_0.9D+1.6W"
      /\ governing_combo <> "ASD_D"
      /\ governing_combo <> "ASD_D+W".
Proof.
  intros wind applied g Hg.
  destruct (load_combinations_run wind applied g Hg)
    as (us & combo & mu & E & Eus & _ & _ & pre & post & Esplit & Hpre).
  exists (load_combinations wind applied), us, combo, mu. split; [exact E |].
  rewrite Eus in Esplit. cbn [load_combinations map fst snd] in Esplit.
  (* the position of the governing combination in the table *)
  do 8 (destruct pre as [| ? pre];
        [ injection Esplit as <- <- _;
          first [ solve [repeat split; discriminate]
                | exfalso;
                  pose proof (Hpre _ (or_introl eq_refl)) as H1;
                  try pose proof (Hpre _ (or_intror (or_introl eq_refl))) as H2;
                  try pose proof (Hpre _ (or_intror (or_intror (or_introl eq_refl))))
                    as H3;
                  cbn [snd] in *; lra ]
        | cbn [app] in Esplit; injection Esplit as <- Esplit ]).
  destruct pre; discriminate.
Qed.

Lemma governing_combo_never_a_repeat_witness :
  -1 <> 0
  /\ exists combinations utilizations governing_combo max_utilization,
       calculate_load_combinations 1000 0 (-1)
       = Ok (combinations, utilizations, governing_combo, max_utilization)
       /\ governing_combo <> "ASD_D".
Proof.
  assert (H : -1 <> 0) by lra.
  split; [exact H |].
  destruct (governing_combo_never_a_repeat 1000 0 (-1) H)
    as (cs & us & combo & mu & E & _ & H2 & _).
  exists cs, us, combo, mu. split; assumption.
Defined.

Lemma load_combinations_positive :
  forall wind applied governing_moment : R,
    0 < governing_moment -> 0 <= wind -> 0 <= applied ->
    exists combinations utilizations governing_combo max_utilization,
      calculate_load_combinations wind applied governing_moment
      = Ok (combinations, utilizations, governing_combo, max_utilization)
      /\ (0 < applied + 1.6 * wind ->
          governing_combo = "LRFD_1.2D+1.6W"
          /\ max_utilization = (applied + 1.6 * wind) / governing_moment)
      /\ (applied + 1.6 * wind = 0 ->
          governing_combo = "LRFD_1.4D" /\ max_utilization = 0).
Proof.
  intros wind applied g Hg Hw Ha.
  assert (Hg0 : g <> 0) by lra.
  rewrite (load_combinations_unfold _ _ _ Hg0). cbv zeta.
  do 4 eexists. split; [reflexivity |].
  cbn [load_combinations map hd tl fst snd max_from].
  split; intros Hload; repeat decide_utilization Hg; cbn [fst snd].
  - split; reflexivity.
  - split; [reflexivity | unfold Rdiv; ring].
Qed.

(** X13. With a positive governing moment and applied and wind moments
    that are not negative and not both zero, LRFD_1.2D+1.6W governs and
    [max_utilization] is [(applied + 1.6 * wind) / governing_moment]; with
    both moments zero, LRFD_1.4D governs at utilization 0. *)
Theorem governing_combo_positive_capacity :
  forall wind applied governing_moment : R,
    0 < governing_moment -> 0 <= wind -> 0 <= applied ->
    exists combinations utilizations governing_combo max_utilization,
      calculate_load_combinations wind applied governing_moment
      = Ok (combinations, utilizations, governing_combo, max_utilization)
      /\ (0 < applied + 1.6 * wind ->
          governing_combo = "LRFD_1.2D+1.6W"
          /\ max_utilization = (applied + 1.6 * wind) / governing_moment)
      /\ (applied + 1.6 * wind = 0 ->
          governing_combo = "LRFD_1.4D" /\ max_utilization = 0).
Proof.
  intros wind applied g Hg Hw Ha.
  exact (load_combinations_positive wind applied g Hg Hw Ha).
Qed.

Lemma governing_combo_positive_capacity_witness :
  0 < 2000 /\ 0 <= 1000 /\ 0 <= 0
  /\ exists combinations utilizations governing_combo max_utilization,
       calculate_load_combinations 1000 0 2000
       = Ok (combinations, utilizations, governing_combo, max_utilization)
       /\ governing_combo = "LRFD_1.2D+1.6W"
       /\ max_utilization = (0 + 1.6 * 1000) / 2000.
Proof.
  assert (H1 : 0 < 2000) by lra. assert (H2 : 0 <= 1000) by lra.
  assert (H3 : 0 <= 0) by lra.
  split; [exact H1 | split; [exact H2 | split; [exact H3 |]]].
  destruct (governing_combo_positive_capacity 1000 0 2000 H1 H2 H3)
    as (cs & us & combo & mu & E & Hpos & _).
  exists cs, us, combo, mu. split; [exact E |]. apply Hpos. lra.
Defined.

(** X14. A negative governing moment turns every demand into a utilization
    that is not positive: with applied and wind moments that are not
    negative, LRFD_1.4D governs and [max_utilization] is 0, whatever the
    load. *)
Theorem governing_combo_negative_capacity :
  forall wind applied governing_moment : R,
    governing_moment < 0 -> 0 <= wind -> 0 <= applied ->
    exists combinations utilizations,
      calculate_load_combinations wind applied governing_moment
      = Ok (combinations, utilizations, "LRFD_1.4D", 0).
Proof.
  intros wind applied g Hg Hw Ha.
  assert (Hg0 : g <> 0) by lra.
  rewrite (load_combinations_unfold _ _ _ Hg0). cbv zeta.
  do 2 eexists.
  cbn [load_combinations map hd tl fst snd max_from].
  repeat decide_utilization Hg; cbn [fst snd].
  f_equal. f_equal. unfold Rdiv; ring.
Qed.

Lemma governing_combo_negative_capacity_witness :
  -2000 < 0 /\ 0 <= 1000 /\ 0 <= 500
  /\ exists combinations utilizations,
       calculate_load_combinations 1000 500 (-2000)
       = Ok (combinations, utilizations, "LRFD_1.4D", 0).
Proof.
  assert (H1 : -2000 < 0) by lra. assert (H2 : 0 <= 1000) by lra.
  assert (H3 : 0 <= 500) by lra.
  split; [exact H1 | split; [exact H2 | split; [exact H3 |]]].
  exact (governing_combo_negative_capacity 1000 500 (-2000) H1 H2 H3).
Defined.

(** X15. [max_utilization] is never negative: LRFD_1.4D always contributes
    the utilization 0. *)
Theorem max_utilization_nonneg :
  forall wind applied governing_moment : R,
    governing_moment <> 0 ->
    exists combinations utilizations governing_combo max_utilization,
      calculate_load_combinations wind applied governing_moment
      = Ok (combinations, utilizations, governing_combo, max_utilization)
      /\ 0 <= max_utilization.
Proof.
  intros wind applied g Hg.
  destruct (load_combinations_run wind applied g Hg)
    as (us & combo & mu & E & Eus & _ & Hmax & _).
  exists (load_combinations wind applied), us, combo, mu. split; [exact E |].
  assert (H0 : 0 / g <= mu).
  { apply Hmax. rewrite Eus. cbn [load_combinations map snd fst]. now left. }
  unfold Rdiv in H0. rewrite Rmult_0_l in H0. exact H0.
Qed.

Lemma max_utilization_nonneg_witness :
  -5 <> 0
  /\ exists combinations utilizations governing_combo max_utilization,
       calculate_load_combinations 1000 300 (-5)
       = Ok (combinations, utilizations, governing_combo, max_utilization)
       /\ 0 <= max_utilization.
Proof.
  assert (H : -5 <> 0) by lra.
  split; [exact H |].
  exact (max_utilization_nonneg 1000 300 (-5) H).
Defined.

(** ** analyze_monopole: what a returned result holds *)

(** Every returned result, step by step. *)
Lemma analyze_monopole_inv (sections : list PoleSection)
    (applied_load_kg wind_speed_ms : R) (exposure steel_grade : string)
    (foundation_params : option FoundationParams)
    (crown_platforms : option (list CrownPlatform)) (r : AnalysisResult) :
  analyze_monopole sections applied_load_kg wind_speed_ms exposure steel_grade
    foundation_params crown_platforms = Ok r ->
  let total_height_m := sum (map height sections) / 1000 in
  let applied_moment := applied_load_kg * gravity * total_height_m in
  exists section rest pole_weight crown_weight capacity modulus g element F M
         utilizations combo mu moment,
    sections = section :: rest
    /\ calculate_dead_load sections crown_platforms = Ok (pole_weight, crown_weight)
    /\ calculate_moment_capacity (diameter_bottom section) (thickness section)
         steel_grade = Ok (capacity, modulus)
    /\ governing (capacity / 2.0) foundation_params = Ok (g, element)
    /\ g <> 0
    /\ (if Rgt_dec wind_speed_ms 0
        then calculate_wind_load sections wind_speed_ms exposure crown_platforms
        else Ok (0, 0)) = Ok (F, M)
    /\ calculate_load_combinations M applied_moment g
       = Ok (load_combinations M applied_moment, utilizations, combo, mu)
    /\ dict_item (load_combinations M applied_moment) combo = Ok moment
    /\ r = mkResult pole_weight crown_weight (pole_weight + crown_weight)
             F M element combo mu
             (if Rgt_dec total_height_m 0
              then g / (gravity * total_height_m) else 0)
             (if Rgt_dec total_height_m 0
              then (g - moment) / (gravity * total_height_m) else 0)
             (status_of mu) (load_combinations M applied_moment) utilizations.
Proof.
  intros H total_height_m applied_moment.
  unfold analyze_monopole in H.
  destruct (calculate_dead_load sections crown_platforms) as [[pw cw] | ?] eqn:Edead;
    [| discriminate].
  cbn [bind] in H.
  destruct sections as [| section rest]; [discriminate |].
  cbn [list_first bind] in H.
  destruct (calculate_moment_capacity _ _ steel_grade) as [[cap Z] | ?] eqn:Ecap;
    [| discriminate].
  cbn [bind] in H.
  destruct (governing (cap / 2.0) foundation_params) as [[g el] | ?] eqn:Egov;
    [| discriminate].
  cbn [bind] in H.
  destruct (if Rgt_dec wind_speed_ms 0 then _ else _) as [[F M] | ?] eqn:Ewind;
    [| discriminate].
  cbn [bind] in H. fold total_height_m in H. fold applied_moment in H.
  assert (Hg : g <> 0).
  { intros ->. rewrite calculate_load_combinations_zero in H. discriminate. }
  destruct (load_combinations_run M applied_moment g Hg)
    as (us & combo & mu & Ecomb & _).
  rewrite Ecomb in H. cbn [bind] in H.
  destruct (dict_item _ combo) as [moment | ?] eqn:Eitem; [| discriminate].
  cbn [bind] in H.
  exists section, rest, pw, cw, cap, Z, g, el, F, M, us, combo, mu, moment.
  repeat (split; [first [reflexivity | assumption] |]).
  destruct (Rgt_dec total_height_m 0) as [Hh | Hh].
  - assert (Hden : gravity * total_height_m <> 0) by (unfold gravity; nra).
    rewrite !(pydiv_ok _ _ Hden) in H. cbn [bind] in H.
    injection H as <-. reflexivity.
  - cbn [bind] in H. injection H as <-. reflexivity.
Qed.

Lemma load_combinations_result (wind applied g : R)
    (combinations utilizations : list (string * R)) (combo : string) (mu : R) :
  calculate_load_combinations wind applied g
  = Ok (combinations, utilizations, combo, mu) ->
  g <> 0
  /\ combinations = load_combinations wind applied
  /\ utilizations = map (fun c => (fst c, snd c / g)) combinations
  /\ In (combo, mu) utilizations
  /\ forall u, In u (map snd utilizations) -> u <= mu.
Proof.
  intros E.
  assert (Hg : g <> 0).
  { intros ->. rewrite calculate_load_combinations_zero in E. discriminate. }
  destruct (load_combinations_run wind applied g Hg)
    as (us & combo' & mu' & E' & Eus & _ & Hmax & pre & post & Esplit & _).
  rewrite E' in E. injection E as <- <- <- <-.
  repeat split; try assumption.
  rewrite Esplit. apply in_or_app. right. now left.
Qed.

Lemma load_combination_names_nodup (wind applied : R) :
  NoDup (map fst (load_combinations wind applied)).
Proof.
  cbn [load_combinations map fst].
  repeat (constructor; [cbn [In]; intuition discriminate |]). constructor.
Qed.

(** In a dict with distinct keys, the utilization listed under a name is
    the quotient of the demand found under that name. *)
Lemma dict_item_utilization (g : R) (d : list (string * R)) (k : string) (u m : R) :
  NoDup (map fst d) ->
  In (k, u) (map (fun c => (fst c, snd c / g)) d) ->
  dict_item d k = Ok m ->
  u = m / g.
Proof.
  induction d as [| [k' v] d IH]; cbn [map fst snd dict_item In]; [intros _ [] |].
  intros Hnd Hin Hitem. inversion Hnd as [| ? ? Hnotin Hnd']; subst.
  destruct (String.eqb_spec k k') as [-> | Hne].
  - injection Hitem as <-. destruct Hin as [Hhead | Htail].
    + now injection Hhead as <-.
    + exfalso. apply Hnotin. apply in_map_iff in Htail as ([k2 v2] & Heq & Hin2).
      cbn [fst snd] in Heq. injection Heq as -> _.
      apply in_map_iff. exists (k', v2). split; [reflexivity | exact Hin2].
  - destruct Hin as [Hhead | Htail].
    + injection Hhead as Hk _. now elim Hne.
    + exact (IH Hnd' Htail Hitem).
Qed.

Lemma remaining_capacity_identity :
  forall (sections : list PoleSection) (applied_load_kg wind_speed_ms : R)
         (exposure steel_grade : string)
         (foundation_params : option FoundationParams)
         (crown_platforms : option (list CrownPlatform)) (r : AnalysisResult),
    analyze_monopole sections applied_load_kg wind_speed_ms exposure steel_grade
      foundation_params crown_platforms = Ok r ->
    remaining_capacity_kg r = max_load_capacity_kg r * (1 - max_utilization r).
Proof.
  intros sections applied_load_kg wind_speed_ms exposure steel_grade
         foundation_params crown_platforms r H.
  destruct (analyze_monopole_inv _ _ _ _ _ _ _ _ H)
    as (section & rest & pw & cw & cap & Z & g & el & F & M & us & combo & mu
        & moment & _ & _ & _ & _ & Hg & _ & Ecomb & Eitem & ->).
  cbn [remaining_capacity_kg max_load_capacity_kg max_utilization].
  destruct (load_combinations_result _ _ _ _ _ _ _ Ecomb) as (_ & _ & Eus & Hin & _).
  rewrite Eus in Hin.
  rewrite (dict_item_utilization g _ combo mu moment
             (load_combination_names_nodup _ _) Hin Eitem).
  destruct (Rgt_dec _ 0) as [Hh | _]; [| lra].
  field. split; [exact Hg |]. unfold gravity. nra.
Qed.



(** X17. The height guard: when the heights of the sections sum to 0 or
    less, a returned result has [max_load_capacity_kg = 0] and
    [remaining_capacity_kg = 0]; no division by the height takes place. *)
Theorem analyze_monopole_height_guard :
  forall (sections : list PoleSection) (applied_load_kg wind_speed_ms : R)
         (exposure steel_grade : string)
         (foundation_params : option FoundationParams)
         (crown_platforms : option (list CrownPlatform)) (r : AnalysisResult),
    analyze_monopole sections applied_load_kg wind_speed_ms exposure steel_grade
      foundation_params crown_platforms = Ok r ->
    sum (map height sections) <= 0 ->
    max_load_capacity_kg r = 0 /\ remaining_capacity_kg r = 0.
Proof.
  intros sections applied_load_kg wind_speed_ms exposure steel_grade
         foundation_params crown_platforms r H Hsum.
  destruct (analyze_monopole_inv _ _ _ _ _ _ _ _ H)
    as (section & rest & pw & cw & cap & Z & g & el & F & M & us & combo & mu
        & moment & _ & _ & _ & _ & _ & _ & _ & _ & ->).
  cbn [remaining_capacity_kg max_load_capacity_kg].
  destruct (Rgt_dec _ 0) as [Hh | _]; [exfalso; lra | split; reflexivity].
Qed.

Lemma analyze_monopole_height_guard_witness :
  exists r,
    analyze_monopole [mkSection 0 250 628 5] 100 20 "C" "S355"
      (Some (mkFoundation 750 16 22 420)) None = Ok r
    /\ sum (map height [mkSection 0 250 628 5]) <= 0
    /\ max_load_capacity_kg r = 0 /\ remaining_capacity_kg r = 0.
Proof.
  destruct (analyze_628_by_bolts 16 0 250 100 20 "C" None) as [Hlow _].
  destruct (Hlow ltac:(lra)) as (r & Hr & _).
  assert (Hsum : sum (map height [mkSection 0 250 628 5]) <= 0)
    by (unfold sum; simpl; lra).
  exists r. split; [exact Hr | split; [exact Hsum |]].
  exact (analyze_monopole_height_guard _ _ _ _ _ _ _ r Hr Hsum).
Defined.

(** X18. The wind of a returned result: for a wind speed of 0 or less the
    force and the moment are 0 and [calculate_wind_load] is not run (it
    would return the load of the opposite speed); for a positive speed they
    are the pair [calculate_wind_load] returns. *)
Theorem analyze_monopole_wind :
  forall (sections : list PoleSection) (applied_load_kg wind_speed_ms : R)
         (exposure steel_grade : string)
         (foundation_params : option FoundationParams)
         (crown_platforms : option (list CrownPlatform)) (r : AnalysisResult),
    analyze_monopole sections applied_load_kg wind_speed_ms exposure steel_grade
      foundation_params crown_platforms = Ok r ->
    (wind_speed_ms <= 0 -> wind_force_n r = 0 /\ wind_moment_nm r = 0)
    /\ (0 < wind_speed_ms ->
        calculate_wind_load sections wind_speed_ms exposure crown_platforms
        = Ok (wind_force_n r, wind_moment_nm r)).
Proof.
  intros sections applied_load_kg wind_speed_ms exposure steel_grade
         foundation_params crown_platforms r H.
  destruct (analyze_monopole_inv _ _ _ _ _ _ _ _ H)
    as (section & rest & pw & cw & cap & Z & g & el & F & M & us & combo & mu
        & moment & _ & _ & _ & _ & _ & Ewind & _ & _ & ->).
  cbn [wind_force_n wind_moment_nm].
  destruct (Rgt_dec wind_speed_ms 0) as [Hpos | Hneg].
  - split; [intros Hle; exfalso; lra | intros _; exact Ewind].
  - injection Ewind as <- <-. split; [intros _; split; reflexivity | intros Hlt].
    exfalso. apply Hneg. exact Hlt.
Qed.

Lemma analyze_monopole_wind_witness :
  exists r,
    analyze_monopole [mkSection 15000 250 628 5] 0 (-20) "C" "S355"
      (Some (mkFoundation 750 16 22 420)) None = Ok r
    /\ wind_force_n r = 0 /\ wind_moment_nm r = 0.
Proof.
  destruct (analyze_628_by_bolts 16 15000 250 0 (-20) "C" None) as [Hlow _].
  destruct (Hlow ltac:(lra)) as (r & Hr & _).
  exists r. split; [exact Hr |].
  destruct (analyze_monopole_wind _ _ _ _ _ _ _ r Hr) as [Hzero _].
  apply Hzero. lra.
Defined.

(** X19. Whatever [analyze_monopole] returns is consistent with the
    calculators: the weights are those of [calculate_dead_load] and add up
    to the total; the combinations are those of the wind moment and of the
    applied moment [load * 9.81 * height]; [max_utilization] is the largest
    of [all_utilizations], is listed there under [governing_combo], and is
    not negative. *)
Theorem analyze_monopole_result_consistent :
  forall (sections : list PoleSection) (applied_load_kg wind_speed_ms : R)
         (exposure steel_grade : string)
         (foundation_params : option FoundationParams)
         (crown_platforms : option (list CrownPlatform)) (r : AnalysisResult),
    analyze_monopole sections applied_load_kg wind_speed_ms exposure steel_grade
      foundation_params crown_platforms = Ok r ->
    calculate_dead_load sections crown_platforms
    = Ok (pole_weight_kg r, crown_weight_kg r)
    /\ total_dead_load_kg r = pole_weight_kg r + crown_weight_kg r
    /\ all_combinations r
       = load_combinations (wind_moment_nm r)
           (applied_load_kg * 9.81 * (sum (map height sections) / 1000))
    /\ map fst (all_utilizations r) = map fst (all_combinations r)
    /\ In (governing_combo r, max_utilization r) (all_utilizations r)
    /\ (forall u, In u (map snd (all_utilizations r)) -> u <= max_utilization r)
    /\ 0 <= max_utilization r.
Proof.
  intros sections applied_load_kg wind_speed_ms exposure steel_grade
         foundation_params crown_platforms r H.
  destruct (analyze_monopole_inv _ _ _ _ _ _ _ _ H)
    as (section & rest & pw & cw & cap & Z & g & el & F & M & us & combo & mu
        & moment & _ & Edead & _ & _ & Hg & _ & Ecomb & _ & ->).
  cbn [pole_weight_kg crown_weight_kg total_dead_load_kg all_combinations
       all_utilizations governing_combo max_utilization wind_moment_nm].
  destruct (load_combinations_result _ _ _ _ _ _ _ Ecomb)
    as (_ & _ & Eus & Hin & Hmax).
  repeat split; try assumption; try reflexivity.
  - rewrite Eus, map_map. cbn [fst]. reflexivity.
  - assert (H0 : 0 / g <= mu).
    { apply Hmax. rewrite Eus. cbn [load_combinations map snd fst]. now left. }
    unfold Rdiv in H0. rewrite Rmult_0_l in H0. exact H0.
Qed.

Lemma analyze_monopole_result_consistent_witness :
  exists r,
    analyze_monopole [mkSection 15000 250 628 5] 0 20 "C" "S355"
      (Some (mkFoundation 750 16 22 420)) None = Ok r
    /\ total_dead_load_kg r = pole_weight_kg r + crown_weight_kg r
    /\ 0 <= max_utilization r.
Proof.
  destruct (analyze_628_by_bolts 16 15000 250 0 20 "C" None) as [Hlow _].
  destruct (Hlow ltac:(lra)) as (r & Hr & _).
  exists r. split; [exact Hr |].
  destruct (analyze_monopole_result_consistent _ _ _ _ _ _ _ r Hr)
    as (_ & Ht & _ & _ & _ & _ & Hm).
  split; assumption.
Defined.

(** ** analyze_monopole: when it returns and when it raises *)

(** Step 4 on a positive pole moment and a foundation with positive
    parameters (or none): the governing moment is positive. *)
Lemma governing_positive (pole : R) (foundation_params : option FoundationParams) :
  0 < pole ->
  match foundation_params with
  | Some p =>
      0 < bolt_circle_diameter p /\ 0 < number_of_bolts p
      /\ 0 < bolt_diameter p /\ 0 < bolt_grade p
  | None => True
  end ->
  exists g element,
    governing pole foundation_params = Ok (g, element)
    /\ 0 < g <= pole
    /\ (element = "POLE" \/ element = "FOUNDATION")
    /\ (foundation_params = None -> element = "POLE").
Proof.
  intros Hpole Hvalid. destruct foundation_params as [p |]; cbn [governing].
  - destruct Hvalid as (Hc & Hn & Hd & Hg).
    unfold calculate_foundation_capacity. cbn [bind].
    set (found := number_of_bolts p / 2
                  * (PI * (bolt_diameter p / 1000) ^ 2 / 4 * bolt_grade p * 1e6 * 0.75)
                  * (bolt_circle_diameter p / 1000 / 2) / 2.0).
    assert (Hfound : 0 < found).
    { pose proof PI_RGT_0 as Hpi.
      assert (Hd2 : 0 < (bolt_diameter p / 1000) ^ 2) by (apply pow_lt; lra).
      unfold found.
      repeat first [ assumption
                   | lra
                   | apply Rdiv_lt_0_compat
                   | apply Rmult_lt_0_compat ]. }
    unfold py_min.
    destruct (Rlt_dec found pole) as [Hlt | Hge].
    + exists found, "FOUNDATION". repeat split; try lra; [now right | discriminate].
    + exists pole, "POLE". repeat split; try lra; now left.
  - exists pole, "POLE". repeat split; try lra; now left.
Qed.



(** A governing moment of 0 stops the run at the first utilization. *)
Lemma analyze_monopole_zero_governing (section : PoleSection) (rest : list PoleSection)
    (applied_load_kg wind_speed_ms : R) (exposure steel_grade : string)
    (foundation_params : option FoundationParams)
    (crown_platforms : option (list CrownPlatform))
    (capacity modulus g : R) (element : string) :
  calculate_moment_capacity (diameter_bottom section) (thickness section) steel_grade
  = Ok (capacity, modulus) ->
  governing (capacity / 2.0) foundation_params = Ok (g, element) ->
  g = 0 ->
  analyze_monopole (section :: rest) applied_load_kg wind_speed_ms exposure
    steel_grade foundation_params crown_platforms = Raise ZeroDivisionError.
Proof.
  intros Hcap Hgov ->.
  unfold analyze_monopole, calculate_dead_load. cbn [bind list_first].
  rewrite Hcap. cbn [bind]. rewrite Hgov. cbn [bind].
  assert (Hwind : exists F M,
            (if Rgt_dec wind_speed_ms 0
             then calculate_wind_load (section :: rest) wind_speed_ms exposure
                    crown_platforms
             else Ok (0, 0)) = Ok (F, M)).
  { destruct (Rgt_dec wind_speed_ms 0); [apply calculate_wind_load_total | eauto]. }
  destruct Hwind as (F & M & ->). cbn [bind].
  rewrite calculate_load_combinations_zero. reflexivity.
Qed.

(** X21. Three inputs on which [analyze_monopole] raises
    [ZeroDivisionError] instead of reporting a failure: a base diameter of
    0; a wall of 0 (or equal to the diameter) without foundation, the pole
    capacity being 0; a foundation without bolts under a sound pole, the
    governing moment being 0. *)
Theorem analyze_monopole_zero_division :
  forall (section : PoleSection) (rest : list PoleSection)
         (applied_load_kg wind_speed_ms : R) (exposure steel_grade : string)
         (crown_platforms : option (list CrownPlatform)),
    (diameter_bottom section = 0 ->
     forall foundation_params,
       analyze_monopole (section :: rest) applied_load_kg wind_speed_ms exposure
         steel_grade foundation_params crown_platforms = Raise ZeroDivisionError)
    /\ (diameter_bottom section <> 0 ->
        thickness section = 0 \/ thickness section = diameter_bottom section ->
        analyze_monopole (section :: rest) applied_load_kg wind_speed_ms exposure
          steel_grade None crown_platforms = Raise ZeroDivisionError)
    /\ (0 < diameter_bottom section ->
        0 < thickness section < diameter_bottom section ->
        forall p : FoundationParams,
          number_of_bolts p = 0 ->
          analyze_monopole (section :: rest) applied_load_kg wind_speed_ms exposure
            steel_grade (Some p) crown_platforms = Raise ZeroDivisionError).
Proof.
  intros section rest applied_load_kg wind_speed_ms exposure steel_grade
         crown_platforms.
  split; [| split].
  - intros HD foundation_params.
    unfold analyze_monopole, calculate_dead_load. cbn [bind list_first].
    unfold calculate_moment_capacity. rewrite HD.
    replace (0 / 1000) with 0 by lra.
    rewrite pydiv_zero. reflexivity.
  - intros HD Ht.
    assert (Hcap : exists cap Z,
              calculate_moment_capacity (diameter_bottom section) (thickness section)
                steel_grade = Ok (cap, Z) /\ cap / 2.0 = 0).
    { unfold calculate_moment_capacity. rewrite pydiv_ok by lra. cbn [bind].
      do 2 eexists. split; [reflexivity |].
      destruct Ht as [-> | ->]; field; lra. }
    destruct Hcap as (cap & Z & Ecap & Hzero).
    eapply analyze_monopole_zero_governing; [exact Ecap | reflexivity | exact Hzero].
  - intros HD Ht p Hn.
    destruct (moment_capacity_positive _ _ steel_grade HD Ht)
      as (cap & Z & Ecap & _ & Hcap).
    assert (Hgov : governing (cap / 2.0) (Some p) = Ok (0, "FOUNDATION")).
    { cbn [governing]. unfold calculate_foundation_capacity. cbn [bind].
      rewrite Hn. unfold py_min.
      replace (0 / 2 * _ * _ / 2.0) with 0 by (unfold Rdiv; ring).
      destruct (Rlt_dec 0 (cap / 2.0)) as [_ | Hge]; [reflexivity | exfalso; lra]. }
    eapply analyze_monopole_zero_governing; [exact Ecap | exact Hgov | reflexivity].
Qed.

Lemma analyze_monopole_zero_division_witness :
  analyze_monopole [mkSection 15000 250 0 5] 0 20 "C" "S355" None None
  = Raise ZeroDivisionError
  /\ analyze_monopole [mkSection 15000 250 628 0] 0 20 "C" "S355" None None
     = Raise ZeroDivisionError
  /\ analyze_monopole [mkSection 15000 250 628 5] 0 20 "C" "S355"
       (Some (mkFoundation 750 0 22 420)) None
     = Raise ZeroDivisionError.
Proof.
  split; [| split].
  - destruct (analyze_monopole_zero_division (mkSection 15000 250 0 5) []
                0 20 "C" "S355" None) as (H & _).
    apply H. reflexivity.
  - destruct (analyze_monopole_zero_division (mkSection 15000 250 628 0) []
                0 20 "C" "S355" None) as (_ & H & _).
    apply H; simpl; [lra | now left].
  - destruct (analyze_monopole_zero_division (mkSection 15000 250 628 5) []
                0 20 "C" "S355" None) as (_ & _ & H).
    apply H; simpl; (lra || reflexivity).
Defined.

(** ** analyze_monopole: the verdict *)

Lemma status_of_fail (u : R) :
  status_of u = "FAIL - Structure is overstressed!" <-> 1 < u.
Proof.
  unfold status_of. split.
  - repeat (destruct (Rgt_dec u _)); intros H; try discriminate H. lra.
  - intros Hu. destruct (Rgt_dec u 1.0) as [_ | Hn]; [reflexivity | exfalso; lra].
Qed.

(** X22. On a sound input with a positive total height, the maximum load
    capacity is positive, and the status is FAIL exactly when the
    remaining capacity is negative, that is when [max_utilization]
    exceeds 1. *)
Theorem analyze_monopole_fail_iff_negative_reserve :
  forall (section : PoleSection) (rest : list PoleSection)
         (applied_load_kg wind_speed_ms : R) (exposure steel_grade : string)
         (foundation_params : option FoundationParams)
         (crown_platforms : option (list CrownPlatform)) (r : AnalysisResult),
    0 < diameter_bottom section ->
    0 < thickness section < diameter_bottom section ->
    match foundation_params with
    | Some p =>
        0 < bolt_circle_diameter p /\ 0 < number_of_bolts p
        /\ 0 < bolt_diameter p /\ 0 < bolt_grade p
    | None => True
    end ->
    0 < sum (map height (section :: rest)) ->
    analyze_monopole (section :: rest) applied_load_kg wind_speed_ms exposure
      steel_grade foundation_params crown_platforms = Ok r ->
    0 < max_load_capacity_kg r
    /\ (remaining_capacity_kg r < 0 <-> 1 < max_utilization r)
    /\ (remaining_capacity_kg r < 0
        <-> status r = "FAIL - Structure is overstressed!").
Proof.
  intros section rest applied_load_kg wind_speed_ms exposure steel_grade
         foundation_params crown_platforms r HD Ht Hf Hsum H.
  pose proof (remaining_capacity_identity _ _ _ _ _ _ _ r H) as Hrem.
  pose proof (analyze_monopole_status_of _ _ _ _ _ _ _ r H) as Hstatus.
  destruct (analyze_monopole_inv _ _ _ _ _ _ _ _ H)
    as (section' & rest' & pw & cw & cap & Z & g & el & F & M & us & combo & mu
        & moment & Esec & _ & Ecap & Egov & _ & _ & _ & _ & Er).
  injection Esec as <- <-.
  destruct (moment_capacity_positive _ _ steel_grade HD Ht)
    as (cap' & Z' & Ecap' & _ & Hcap).
  rewrite Ecap in Ecap'. injection Ecap' as <- <-.
  destruct (governing_positive (cap / 2.0) foundation_params ltac:(lra) Hf)
    as (g' & el' & Egov' & Hg & _).
  rewrite Egov in Egov'. injection Egov' as <- <-.
  assert (Hmax : 0 < max_load_capacity_kg r).
  { rewrite Er. cbn [max_load_capacity_kg].
    destruct (Rgt_dec _ 0) as [Hh | Hh]; [| exfalso; lra].
    apply Rdiv_lt_0_compat; [lra | unfold gravity; nra]. }
  split; [exact Hmax |].
  assert (Hiff : remaining_capacity_kg r < 0 <-> 1 < max_utilization r).
  { rewrite Hrem. split; intros Hlt; nra. }
  split; [exact Hiff |].
  rewrite Hstatus, status_of_fail. exact Hiff.
Qed.

Lemma analyze_monopole_fail_iff_negative_reserve_witness :
  exists r,
    analyze_monopole [mkSection 15000 250 628 5] 0 20 "C" "S355" None None = Ok r
    /\ 0 < max_load_capacity_kg r
    /\ (remaining_capacity_kg r < 0
        <-> status r = "FAIL - Structure is overstressed!").
Proof.
  assert (HD : 0 < diameter_bottom (mkSection 15000 250 628 5)) by (simpl; lra).
  assert (Ht : 0 < thickness (mkSection 15000 250 628 5)
               < diameter_bottom (mkSection 15000 250 628 5)) by (simpl; lra).
  assert (Hsum : 0 < sum (map height [mkSection 15000 250 628 5]))
    by (unfold sum; simpl; lra).
  destruct (analyze_monopole_returns (mkSection 15000 250 628 5) [] 0 20 "C" "S355"
              None None _ _ _ _ pole_628_capacity eq_refl) as (r & Hr & _).
  { pose proof PI_RGT_0. lra. }
  exists r. split; [exact Hr |].
  destruct (analyze_monopole_fail_iff_negative_reserve _ _ _ _ _ _ None None r
              HD Ht I Hsum Hr) as (Hmax & _ & Hiff).
  split; assumption.
Defined.

(** X23. The governing element is decided by the base section, the steel
    grade and the foundation alone: two returned runs that share the bottom
    diameter and wall of their first section, the grade and the foundation
    report the same element, whatever the other sections, the loads, the
    wind, the exposure and the platforms. *)
Theorem governing_element_by_base_section :
  forall (s s' : PoleSection) (rest rest' : list PoleSection)
         (load load' V V' : R) (e e' steel_grade : string)
         (foundation_params : option FoundationParams)
         (platforms platforms' : option (list CrownPlatform))
         (r r' : AnalysisResult),
    diameter_bottom s = diameter_bottom s' ->
    thickness s = thickness s' ->
    analyze_monopole (s :: rest) load V e steel_grade foundation_params platforms
    = Ok r ->
    analyze_monopole (s' :: rest') load' V' e' steel_grade foundation_params platforms'
    = Ok r' ->
    governing_element r = governing_element r'.
Proof.
  intros s s' rest rest' load load' V V' e e' steel_grade foundation_params
         platforms platforms' r r' HD Ht H H'.
  destruct (analyze_monopole_inv _ _ _ _ _ _ _ _ H)
    as (s1 & rest1 & pw & cw & cap & Z & g & el & F & M & us & combo & mu
        & moment & Esec & _ & Ecap & Egov & _ & _ & _ & _ & ->).
  destruct (analyze_monopole_inv _ _ _ _ _ _ _ _ H')
    as (s2 & rest2 & pw' & cw' & cap' & Z2 & g' & el' & F' & M' & us' & combo' & mu'
        & moment' & Esec' & _ & Ecap' & Egov' & _ & _ & _ & _ & ->).
  injection Esec as <- <-. injection Esec' as <- <-.
  cbn [governing_element].
  rewrite HD, Ht, Ecap' in Ecap. injection Ecap as -> ->.
  rewrite Egov' in Egov. now injection Egov as _ ->.
Qed.

Lemma governing_element_by_base_section_witness :
  exists r r',
    analyze_monopole [mkSection 15000 250 628 5] 0 20 "C" "S355"
      (Some (mkFoundation 750 16 22 420)) None = Ok r
    /\ analyze_monopole [mkSection 9000 400 628 5; mkSection 6000 250 400 5]
         120 35 "B" "S355" (Some (mkFoundation 750 16 22 420)) None = Ok r'
    /\ governing_element r = governing_element r'.
Proof.
  destruct (analyze_628_by_bolts 16 15000 250 0 20 "C" None) as [Hlow _].
  destruct (Hlow ltac:(lra)) as (r & Hr & _).
  destruct (governing_628_by_bolts 16) as [Hg _].
  destruct (Hg ltac:(lra)) as (g & Hgov & Hg0).
  destruct (analyze_monopole_returns (mkSection 9000 400 628 5)
              [mkSection 6000 250 400 5] 120 35 "B" "S355"
              (Some (mkFoundation 750 16 22 420)) None _ _ _ _
              pole_628_capacity Hgov Hg0) as (r' & Hr' & _).
  exists r, r'. split; [exact Hr | split; [exact Hr' |]].
  exact (governing_element_by_base_section
           (mkSection 15000 250 628 5) (mkSection 9000 400 628 5)
           _ _ _ _ _ _ _ _ _ _ _ _ r r' eq_refl eq_refl Hr Hr').
Defined.

(** X24. Adding bolts never hands the verdict over to the foundation: of
    two returned runs that differ in the bolt count only, with a grade and
    a bolt circle that are not negative, if the run with fewer bolts
    reports POLE then so does the run with more bolts. *)
Theorem governing_element_more_bolts :
  forall (sections : list PoleSection) (load V : R) (e steel_grade : string)
         (platforms : option (list CrownPlatform))
         (circle n n' d grade : R) (r r' : AnalysisResult),
    0 <= circle -> 0 <= grade -> n <= n' ->
    analyze_monopole sections load V e steel_grade
      (Some (mkFoundation circle n d grade)) platforms = Ok r ->
    analyze_monopole sections load V e steel_grade
      (Some (mkFoundation circle n' d grade)) platforms = Ok r' ->
    governing_element r = "POLE" ->
    governing_element r' = "POLE".
Proof.
  intros sections load V e steel_grade platforms circle n n' d grade r r'
         Hc Hgr Hn H H'.
  destruct (analyze_monopole_inv _ _ _ _ _ _ _ _ H)
    as (s1 & rest1 & pw & cw & cap & Z & g & el & F & M & us & combo & mu
        & moment & Esec & _ & Ecap & Egov & _ & _ & _ & _ & ->).
  destruct (analyze_monopole_inv _ _ _ _ _ _ _ _ H')
    as (s2 & rest2 & pw' & cw' & cap' & Z2 & g' & el' & F' & M' & us' & combo' & mu'
        & moment' & Esec' & _ & Ecap' & Egov' & _ & _ & _ & _ & ->).
  rewrite Esec in Esec'. injection Esec' as <- <-.
  rewrite Ecap in Ecap'. injection Ecap' as <- <-.
  cbn [governing_element]. intros ->.
  cbn [governing] in Egov, Egov'.
  unfold calculate_foundation_capacity in Egov, Egov'.
  cbn [bind bolt_circle_diameter number_of_bolts bolt_diameter bolt_grade]
    in Egov, Egov'.
  set (k := PI * (d / 1000) ^ 2 / 4 * grade * 1e6 * 0.75) in *.
  assert (Hk : 0 <= k).
  { pose proof PI_RGT_0 as Hpi. pose proof (pow2_ge_0 (d / 1000)) as Hd.
    unfold k.
    apply Rmult_le_pos; [apply Rmult_le_pos; [apply Rmult_le_pos |] |]; try lra.
    apply Rmult_le_pos; [| lra]. apply Rmult_le_pos; lra. }
  assert (Hmono : n / 2 * k * (circle / 1000 / 2) / 2.0
                  <= n' / 2 * k * (circle / 1000 / 2) / 2.0).
  { assert (Hkc : 0 <= k * (circle / 1000 / 2)) by (apply Rmult_le_pos; lra).
    nra. }
  destruct (Rlt_dec (n / 2 * k * (circle / 1000 / 2) / 2.0) (cap / 2.0))
    as [Hlt | Hge]; [injection Egov as _ Hel; discriminate Hel |].
  destruct (Rlt_dec (n' / 2 * k * (circle / 1000 / 2) / 2.0) (cap / 2.0))
    as [Hlt' | Hge']; [exfalso; lra |].
  now injection Egov' as _ <-.
Qed.

Lemma governing_element_more_bolts_witness :
  exists r r',
    analyze_monopole [mkSection 15000 250 628 5] 0 20 "C" "S355"
      (Some (mkFoundation 750 24 22 420)) None = Ok r
    /\ analyze_monopole [mkSection 15000 250 628 5] 0 20 "C" "S355"
         (Some (mkFoundation 750 32 22 420)) None = Ok r'
    /\ governing_element r = "POLE"
    /\ governing_element r' = "POLE".
Proof.
  destruct (analyze_628_by_bolts 24 15000 250 0 20 "C" None) as [_ H24].
  destruct (H24 ltac:(lra)) as (r & Hr & Hel).
  destruct (analyze_628_by_bolts 32 15000 250 0 20 "C" None) as [_ H32].
  destruct (H32 ltac:(lra)) as (r' & Hr' & _).
  exists r, r'. split; [exact Hr | split; [exact Hr' | split; [exact Hel |]]].
  assert (H1 : 0 <= 750) by lra. assert (H2 : 0 <= 420) by lra.
  assert (H3 : 24 <= 32) by lra.
  exact (governing_element_more_bolts _ _ _ _ _ _ 750 24 32 22 420 r r'
           H1 H2 H3 Hr Hr' Hel).
Defined.

(** ** The run of the script *)

Lemma PI_bounds : 3.14 < PI < 3.15.
Proof.
  pose proof (PI_2_3_7_ineq 1) as H.
  unfold sum_f_R0, tg_alt, PI_2_3_7_tg, Ratan_seq in H. simpl in H. lra.
Qed.

Lemma kz_C_bands (h : R) :
  (6.1 <= h < 9.1 -> calculate_kz h "C" = Ok 0.98)
  /\ (9.1 <= h < 12.2 -> calculate_kz h "C" = Ok 1.04)
  /\ (12.2 <= h < 15.2 -> calculate_kz h "C" = Ok 1.09).
Proof.
  repeat split; intros Hh;
    destruct (kz_C_cases h)
      as [[R1 E] | [[R1 E] | [[R1 E] | [[R1 E] | [[R1 E] | [R1 E]]]]]];
    first [exact E | exfalso; lra].
Qed.

(** Wind on the script's tower at 20 m/s: 8663.306481 N and
    106262.3071425 N.m. *)
Lemma script_wind_load :
  calculate_wind_load Script.monopole_sections 20.0 "C" (Some Script.crown_platforms)
  = Ok (8663.306481, 106262.3071425).
Proof.
  unfold calculate_wind_load, Script.monopole_sections, Script.crown_platforms.
  cbn [wind_sections height diameter_top diameter_bottom].
  rewrite (proj1 (kz_C_bands (0 + 15000 / 1000 / 2))) by lra.
  cbn [bind wind_sections truthy get wind_platforms platform_height].
  rewrite (proj2 (proj2 (kz_C_bands 14.0))) by lra.
  cbn [bind].
  rewrite (proj1 (proj2 (kz_C_bands 11.0))) by lra.
  cbn [bind wind_platforms wind_items get antennas rrus platform_wind_area_m2
       platform_cf cf wind_area_m2 Script.sector_antenna Script.rru].
  repeat decide_cmp.
  unfold kzt, kd, pole_cf. f_equal. f_equal; lra.
Qed.

(** The foundation of the script governs, with [57172.5 * pi] N.m. *)
Lemma script_governing :
  governing
    (PI / 32 * ((628 / 1000) ^ 4 - (628 / 1000 - 2 * (5 / 1000)) ^ 4)
       / (628 / 1000) * 355 * 1e6 / 2.0)
    (Some Script.foundation_parameters)
  = Ok (57172.5 * PI, "FOUNDATION").
Proof.
  unfold governing, calculate_foundation_capacity, py_min,
    Script.foundation_parameters.
  cbn [bind bolt_circle_diameter number_of_bolts bolt_diameter bolt_grade].
  pose proof PI_RGT_0 as Hpi.
  destruct (Rlt_dec _ _) as [Hlt | Hge]; [| exfalso; apply Hge; nra].
  f_equal. f_equal. lra.
Qed.

(** X25. What the script prints for its balanced 15 m tower: a crown of
    1200 kg, a wind force of 8663.306481 N and a wind moment of
    106262.3071425 N.m; the foundation governs with LRFD_1.2D+1.6W at a
    utilization of [1.6 * 106262.3071425 / (57172.5 * pi)], between 0.94
    and 0.95, and the status is CRITICAL. *)
Theorem script_results :
  exists r,
    Script.results = Ok r
    /\ crown_weight_kg r = 1200
    /\ wind_force_n r = 8663.306481
    /\ wind_moment_nm r = 106262.3071425
    /\ governing_element r = "FOUNDATION"
    /\ governing_combo r = "LRFD_1.2D+1.6W"
    /\ max_utilization r = 1.6 * 106262.3071425 / (57172.5 * PI)
    /\ 0.94 < max_utilization r < 0.95
    /\ status r = "CRITICAL - Very high utilization".
Proof.
  pose proof PI_bounds as Hpi.
  assert (Hg : 0 < 57172.5 * PI) by lra.
  destruct (analyze_monopole_returns (mkSection 15000 250 628 5) [] 0 20.0 "C"
              "S355" (Some Script.foundation_parameters)
              (Some Script.crown_platforms) _ _ _ _
              pole_628_capacity script_governing ltac:(lra))
    as (r & Hr & Hel).
  exists r. split; [exact Hr |].
  pose proof (analyze_monopole_status_of _ _ _ _ _ _ _ r Hr) as Hstatus.
  destruct (analyze_monopole_inv _ _ _ _ _ _ _ _ Hr)
    as (s1 & rest1 & pw & cw & cap & Z & g & el & F & M & us & combo & mu
        & moment & Esec & Edead & Ecap & Egov & _ & Ewind & Ecomb & _ & Er).
  injection Esec as <- <-.
  (* the pole, the foundation and the wind *)
  cbn [diameter_bottom thickness] in Ecap.
  rewrite pole_628_capacity in Ecap. injection Ecap as <- <-.
  pose proof script_governing as Hsg. cbn [pow] in Hsg.
  rewrite Hsg in Egov. clear Hsg. injection Egov as <- <-.
  destruct (Rgt_dec 20.0 0) as [_ | Hn]; [| exfalso; lra].
  pose proof script_wind_load as Hwl. unfold Script.monopole_sections in Hwl.
  rewrite Hwl in Ewind. clear Hwl. injection Ewind as <- <-.
  (* the combinations *)
  set (applied := 0 * gravity * (sum (map height [mkSection 15000 250 628 5]) / 1000))
    in *.
  assert (Happlied : applied = 0) by (unfold applied; ring).
  destruct (load_combinations_positive 106262.3071425 applied (57172.5 * PI)
              Hg ltac:(lra) ltac:(lra))
    as (cs & us' & combo' & mu' & Ecomb' & Hpos & _).
  rewrite Ecomb in Ecomb'. injection Ecomb' as _ <- <- <-.
  destruct (Hpos ltac:(lra)) as [Ecombo Emu].
  rewrite Happlied in Emu.
  assert (Hmu : mu = 1.6 * 106262.3071425 / (57172.5 * PI))
    by (rewrite Emu; f_equal; lra).
  assert (Hband : 0.94 < mu < 0.95).
  { rewrite Hmu. split.
    - apply (Rmult_lt_reg_r (57172.5 * PI)); [exact Hg |].
      unfold Rdiv. rewrite Rmult_assoc, Rinv_l by lra. lra.
    - apply (Rmult_lt_reg_r (57172.5 * PI)); [exact Hg |].
      unfold Rdiv. rewrite Rmult_assoc, Rinv_l by lra. lra. }
  (* the crown *)
  unfold calculate_dead_load in Edead. injection Edead as _ Ecw.
  assert (Hcw : cw = 1200).
  { rewrite <- Ecw.
    cbn [truthy get Script.crown_platforms dead_platforms platform_weight_kg
         antennas rrus other_equipment].
    unfold equipment_weights, sum.
    cbn [get map fold_left weight_kg Script.sector_antenna Script.rru
         Script.microlink].
    lra. }
  rewrite Hstatus, Er.
  cbn [crown_weight_kg wind_force_n wind_moment_nm governing_element
       governing_combo max_utilization].
  repeat (split; [first [reflexivity | assumption | lra] |]).
  destruct (status_of_bands mu) as (_ & Hcrit & _). apply Hcrit. lra.
Qed.
